(** * Calling-Agent: the booking validation and availability engine

    A shallow embedding of the court-booking core of the FastAPI backend
    ([utils/time_utils.py], [utils/slot_utils.py],
    [services/calendar_service.py], [services/booking_service.py]) and the
    properties of its specification that were checked against it.

    Conventions of the embedding:
    - a Python [str] is a [string]; only ASCII text is modelled (Python's
      [int()] and [strptime] also accept non-ASCII decimal digits);
    - a Python [int] is a [Z];
    - a function that may raise returns a [result]; a [try]/[except] is a
      [match] on it;
    - the Google Calendar client is an oracle that answers each call from the
      history of the calls issued so far; code that talks to it lives in the
      monad [io], which threads that history. *)

From Stdlib Require Import ZArith Ascii String List Lia DecimalString.
From stdpp Require Import base option list list_numbers gmap strings sorting.

Local Open Scope Z_scope.

(** ** Python primitives *)

Module Py.

(** Exceptions that can travel through the modelled code. [HttpError] never
    escapes the calendar service and is an outcome of the oracle instead. *)
Inductive exn :=
| ValueError (msg : string)
| ZeroDivisionError (msg : string)
| OverflowError (msg : string)
| OtherError (msg : string).

(** [str(e)] *)
Definition exn_str (e : exn) : string :=
  match e with
  | ValueError m | ZeroDivisionError m | OverflowError m | OtherError m => m
  end.

Inductive result (A : Type) :=
| Ok (a : A)
| Raise (e : exn).
Arguments Ok {A} a.
Arguments Raise {A} e.

Definition rbind {A B} (r : result A) (k : A → result B) : result B :=
  match r with
  | Ok a => k a
  | Raise e => Raise e
  end.

(** [str(n)] for an int *)
Definition str_of_Z (n : Z) : string :=
  NilEmpty.string_of_int (Z.to_int n).

Definition newline : string := String (ascii_of_nat 10) EmptyString.

Definition is_digit (c : ascii) : bool :=
  let n := nat_of_ascii c in (48 <=? n)%nat && (n <=? 57)%nat.

Definition digit_value (c : ascii) : Z := Z.of_nat (nat_of_ascii c) - 48.

(** The ASCII characters that [int()] strips as white space: tab to
    carriage return, and the space. *)
Definition is_space (c : ascii) : bool :=
  let n := nat_of_ascii c in
  ((9 <=? n)%nat && (n <=? 13)%nat) || (n =? 32)%nat.

Fixpoint lstrip (l : list ascii) : list ascii :=
  match l with
  | c :: l' => if is_space c then lstrip l' else l
  | [] => []
  end.

Definition strip (l : list ascii) : list ascii :=
  rev (lstrip (rev (lstrip l))).

(** Decimal digits with single underscores between them. *)
Fixpoint int_digits (acc : Z) (after_digit : bool) (l : list ascii) : option Z :=
  match l with
  | [] => if after_digit then Some acc else None
  | c :: l' =>
      if is_digit c then int_digits (10 * acc + digit_value c) true l'
      else if Ascii.eqb c "_" then
        (if after_digit then int_digits acc false l' else None)
      else None
  end.

(** [sys.int_info.default_max_str_digits] *)
Definition int_max_str_digits : nat := 4300.

(** The digits after the sign: a text with more digit characters than the
    limit is refused, whatever else it holds. *)
Definition int_literal (l : list ascii) : option Z :=
  if (int_max_str_digits <? length (List.filter is_digit l))%nat then None
  else int_digits 0 false l.

(** [int(s)]: [None] stands for the [ValueError] it raises. *)
Definition int_of_str (s : string) : option Z :=
  match strip (list_ascii_of_string s) with
  | c :: l =>
      if Ascii.eqb c "-" then Z.opp <$> int_literal l
      else if Ascii.eqb c "+" then int_literal l
      else int_literal (c :: l)
  | [] => None
  end.

(** [s.split(sep)] for a one-character separator *)
Fixpoint str_split (sep : ascii) (s : string) : list string :=
  match s with
  | EmptyString => [EmptyString]
  | String c s' =>
      if Ascii.eqb c sep then EmptyString :: str_split sep s'
      else match str_split sep s' with
           | h :: t => String c h :: t
           | [] => [String c EmptyString]
           end
  end.

(** [needle in hay] for two strings *)
Fixpoint contains (needle hay : string) : bool :=
  String.prefix needle hay ||
  match hay with
  | EmptyString => false
  | String _ hay' => contains needle hay'
  end.

(** [sep.join(parts)] *)
Definition str_join (sep : string) (parts : list string) : string :=
  String.concat sep parts.

(** Values of a JSON-loaded [Dict[str, Any]] as the booking rules hold
    them: integers and booleans. *)
Inductive pyval :=
| PInt (z : Z)
| PBool (b : bool).

(** truth value in an [if] *)
Definition truthy (v : pyval) : bool :=
  match v with
  | PInt z => negb (z =? 0)
  | PBool b => b
  end.

(** the integer a value counts as in arithmetic and comparisons *)
Definition int_of (v : pyval) : Z :=
  match v with
  | PInt z => z
  | PBool b => if b then 1 else 0
  end.

(** the value inside an f-string *)
Definition fmt (v : pyval) : string :=
  match v with
  | PInt z => str_of_Z z
  | PBool true => "True"
  | PBool false => "False"
  end.

End Py.
Export Py.

(** ** [datetime.strptime]

    [strptime] turns a format into a regular expression whose directives are
    groups of ordered alternatives, matches it at the start of the text with
    back-tracking, and then rejects text that the match did not consume. *)

Module Strptime.

Definition cclass := ascii → bool.

Definition range (lo hi : ascii) : cclass := λ c,
  (nat_of_ascii lo <=? nat_of_ascii c)%nat && (nat_of_ascii c <=? nat_of_ascii hi)%nat.
Definition digit : cclass := is_digit.
Definition lit (a : ascii) : cclass := Ascii.eqb a.

(** One alternative is a sequence of character classes; a match returns the
    matched text and the rest. *)
Fixpoint match_seq (cs : list cclass) (s : list ascii)
  : option (list ascii * list ascii) :=
  match cs, s with
  | [], _ => Some ([], s)
  | p :: cs', c :: s' =>
      if p c then
        match match_seq cs' s' with
        | Some (m, r) => Some (c :: m, r)
        | None => None
        end
      else None
  | _ :: _, [] => None
  end.

(** A group followed by the rest of the expression [k]: the first
    alternative after which [k] succeeds wins. *)
Fixpoint match_group {R} (alts : list (list cclass))
    (k : list ascii → list ascii → option R) (s : list ascii) : option R :=
  match alts with
  | [] => None
  | a :: alts' =>
      match match_seq a s ≫= (λ mr, k mr.1 mr.2) with
      | Some x => Some x
      | None => match_group alts' k s
      end
  end.

(** [int(found_dict[group])] *)
Definition group_int (m : list ascii) : Z :=
  default 0 (int_of_str (string_of_list_ascii m)).

Definition re_H : list (list cclass) :=
  [[lit "2"; range "0" "3"]; [range "0" "1"; digit]; [digit]].
Definition re_M : list (list cclass) :=
  [[range "0" "5"; digit]; [digit]].
Definition re_Y : list (list cclass) :=
  [[digit; digit; digit; digit]].
Definition re_m : list (list cclass) :=
  [[lit "1"; range "0" "2"]; [lit "0"; range "1" "9"]; [range "1" "9"]].
Definition re_d : list (list cclass) :=
  [[lit "3"; range "0" "1"]; [range "1" "2"; digit]; [lit "0"; range "1" "9"];
   [range "1" "9"]; [lit " "; range "1" "9"]].

Definition expect (a : ascii) {R} (k : list ascii → option R) (s : list ascii)
  : option R :=
  match s with
  | c :: s' => if Ascii.eqb c a then k s' else None
  | [] => None
  end.

(** the fields found by the format ["%H:%M"] *)
Definition match_HM (s : string) : option (Z * Z) :=
  match
    match_group re_H (λ h, expect ":" (
    match_group re_M (λ m r, Some (h, m, r)))) (list_ascii_of_string s)
  with
  | Some (h, m, []) => Some (group_int h, group_int m)
  | _ => None
  end.

(** the fields found by the format ["%Y-%m-%d"] *)
Definition match_Ymd (s : string) : option (Z * Z * Z) :=
  match
    match_group re_Y (λ y, expect "-" (
    match_group re_m (λ m, expect "-" (
    match_group re_d (λ d r, Some (y, m, d, r)))))) (list_ascii_of_string s)
  with
  | Some (y, m, d, []) => Some (group_int y, group_int m, group_int d)
  | _ => None
  end.

End Strptime.

(** ** [utils/time_utils.py] *)

Module TimeUtils.

(** [datetime.time], to the minute *)
Record time := mk_time { hour : Z; minute : Z }.

Definition time_lt (a b : time) : bool :=
  (hour a <? hour b) || ((hour a =? hour b) && (minute a <? minute b)).

(** [datetime.datetime], to the minute: the proleptic Gregorian ordinal of
    its date ([toordinal()]) and the minute of its day. All instants of the
    program carry the one configured time zone. *)
Record datetime := mk_datetime { ordinal : Z; minute_of_day : Z }.

Definition MAXORDINAL : Z := 3652059.

Definition is_leap (y : Z) : bool :=
  (y mod 4 =? 0) && (negb (y mod 100 =? 0) || (y mod 400 =? 0)).

Definition days_in_month (y m : Z) : Z :=
  if m =? 2 then (if is_leap y then 29 else 28)
  else if (m =? 4) || (m =? 6) || (m =? 9) || (m =? 11) then 30
  else 31.

Definition days_before_year (y : Z) : Z :=
  let y' := y - 1 in y' * 365 + y' / 4 - y' / 100 + y' / 400.

Definition days_before_month (y m : Z) : Z :=
  foldr Z.add 0 (days_in_month y <$> seqZ 1 (m - 1)).

Definition ymd2ord (y m d : Z) : Z :=
  days_before_year y + days_before_month y m + d.

Definition parse_time (time_str : string) : result time :=
  match Strptime.match_HM time_str with
  | Some (h, m) => Ok (mk_time h m)
  | None =>
      Raise (ValueError ("Invalid time format: " +:+ time_str +:+ ". Expected HH:MM format."))
  end.

Definition parse_date (date_str : string) : result datetime :=
  match Strptime.match_Ymd date_str with
  | Some (y, m, d) =>
      if (1 <=? y) && (d <=? days_in_month y m) then
        Ok (mk_datetime (ymd2ord y m d) 0)
      else
        Raise (ValueError ("Invalid date format: " +:+ date_str +:+ ". Expected YYYY-MM-DD format."))
  | None =>
      Raise (ValueError ("Invalid date format: " +:+ date_str +:+ ". Expected YYYY-MM-DD format."))
  end.

(** [pytz.timezone("Asia/Kolkata").localize(naive_dt)]: the zone is found
    by looking one day back and one day ahead of the naive instant, and
    either step overflows at its end of the date range; otherwise the
    instant keeps its wall-clock fields and gains the zone. *)
Definition localize (naive_dt : datetime) : result datetime :=
  if (ordinal naive_dt =? 1) || (ordinal naive_dt =? MAXORDINAL) then
    Raise (OverflowError "date value out of range")
  else Ok naive_dt.

(** [combine_datetime(date_str, time_str)] with the default [timezone_str],
    as both of its callers use it. *)
Definition combine_datetime (date_str time_str : string) : result datetime :=
  rbind (parse_date date_str) (λ date_obj,
  rbind (parse_time time_str) (λ time_obj,
  let naive_dt :=
    mk_datetime (ordinal date_obj) (hour time_obj * 60 + minute time_obj) in
  localize naive_dt)).

(** [timedelta(minutes=n)]: the day count is converted to a C [int] and must
    then have a magnitude of at most 999999999. *)
Definition timedelta (minutes : Z) : result Z :=
  let days := minutes / 1440 in
  if Z.abs days <=? 999999999 then Ok minutes
  else if (- 2147483648 <=? days) && (days <=? 2147483647) then
    Raise (OverflowError ("days=" +:+ str_of_Z days
                            +:+ "; must have magnitude <= 999999999"))
  else Raise (OverflowError "Python int too large to convert to C int").

(** [dt + delta]: the date must stay within years 1..9999 *)
Definition datetime_add (dt : datetime) (delta : Z) : result datetime :=
  let total := minute_of_day dt + delta in
  let ord := ordinal dt + total / 1440 in
  if (1 <=? ord) && (ord <=? MAXORDINAL) then Ok (mk_datetime ord (total mod 1440))
  else Raise (OverflowError "date value out of range").

Definition get_end_datetime (start_dt : datetime) (duration_minutes : Z)
  : result datetime :=
  rbind (timedelta duration_minutes) (datetime_add start_dt).

Definition two_digits (n : Z) : string :=
  str_of_Z (n / 10) +:+ str_of_Z (n mod 10).

(** [dt.strftime("%H:%M")] *)
Definition strftime_HM (dt : datetime) : string :=
  two_digits (minute_of_day dt / 60) +:+ ":" +:+ two_digits (minute_of_day dt mod 60).

Definition is_within_operating_hours
    (start_time end_time open_time close_time : string) : bool * string :=
  match
    rbind (parse_time start_time) (λ start,
    rbind (parse_time end_time) (λ end_,
    rbind (parse_time open_time) (λ open_t,
    rbind (parse_time close_time) (λ close_t,
      if time_lt start open_t then
        Ok (false, "Facility opens at " +:+ open_time)
      else if time_lt close_t end_ then
        Ok (false, "Facility closes at " +:+ close_time)
      else Ok (true, "")))))
  with
  | Ok r => r
  | Raise e => (false, exn_str e)   (* [except ValueError]: all the body raises *)
  end.

(** [today] is the ordinal of [datetime.today()]. *)
Definition calculate_end_time (today : Z) (start_time : string)
    (duration_minutes : Z) : result string :=
  rbind (parse_time start_time) (λ start,
  let start_dt := mk_datetime today (hour start * 60 + minute start) in
  rbind (timedelta duration_minutes) (λ delta,
  rbind (datetime_add start_dt delta) (λ end_dt,
  Ok (strftime_HM end_dt)))).

End TimeUtils.

(** ** [utils/slot_utils.py] *)

Module SlotUtils.

Definition validate_slot_alignment (start_time : string) : bool * string :=
  let invalid :=
    (false, "Invalid time format: " +:+ start_time +:+ ". Expected HH:MM") in
  match str_split ":" start_time with
  | [hour; minute] =>
      match int_of_str minute with
      | Some minute =>
          if negb (minute =? 0) then
            (false, "Start time must align with hourly boundaries (e.g., 06:00, 14:00). Got "
                      +:+ start_time)
          else (true, "")
      | None => invalid
      end
  | _ => invalid
  end.

Definition validate_duration (duration_minutes : Z)
    (minimum_duration duration_multiples : pyval) : result (bool * string) :=
  if duration_minutes <? int_of minimum_duration then
    Ok (false, "Duration must be at least " +:+ fmt minimum_duration +:+ " minutes")
  else if int_of duration_multiples =? 0 then
    Raise (ZeroDivisionError "integer modulo by zero")
  else if negb (duration_minutes mod int_of duration_multiples =? 0) then
    Ok (false, "Duration must be a multiple of " +:+ fmt duration_multiples
                 +:+ " minutes. Got " +:+ str_of_Z duration_minutes)
  else Ok (true, "").

Definition validate_booking_slot (start_time : string) (duration_minutes : Z)
    (booking_rules : gmap string pyval) : result (bool * string) :=
  let minimum_duration := default (PInt 60) (booking_rules !! "minimum_duration") in
  let duration_multiples := default (PInt 60) (booking_rules !! "duration_multiples") in
  let fixed_slots := default (PBool true) (booking_rules !! "fixed_slots") in
  let aligned :=
    if truthy fixed_slots then validate_slot_alignment start_time else (true, "") in
  if negb aligned.1 then Ok (false, aligned.2)
  else
    rbind (validate_duration duration_minutes minimum_duration duration_multiples)
      (λ dur, if negb dur.1 then Ok (false, dur.2) else Ok (true, "")).

(** the first court number of the loop that is out of range *)
Fixpoint first_invalid_court (court_numbers : list Z) (number_of_courts : Z)
  : option Z :=
  match court_numbers with
  | [] => None
  | court_num :: rest =>
      if (court_num <? 1) || (number_of_courts <? court_num) then Some court_num
      else first_invalid_court rest number_of_courts
  end.

Definition validate_court_numbers (court_numbers : list Z) (number_of_courts : Z)
  : bool * string :=
  match court_numbers with
  | [] => (false, "At least one court must be specified")
  | _ =>
      match first_invalid_court court_numbers number_of_courts with
      | Some court_num =>
          (false, "Invalid court number " +:+ str_of_Z court_num
                    +:+ ". Facility has courts 1-" +:+ str_of_Z number_of_courts)
      | None =>
          if negb (length court_numbers =? size (list_to_set (C := gset Z) court_numbers))%nat
          then (false, "Duplicate court numbers found in request")
          else (true, "")
      end
  end.

End SlotUtils.

(** ** The external calendar and the [io] monad *)

Module Calendar.
Import TimeUtils.

(** An event as the list call returns it; a key may be missing. *)
Record Event := mk_event {
  summary : option string;
  description : option string
}.

(** The body sent by the insert call (its reminders are constant). *)
Record EventBody := mk_body {
  body_summary : string;
  body_description : string;
  body_start : datetime;
  body_end : datetime
}.

(** The calls issued to the Google Calendar client. *)
Inductive Call :=
| EventsList (calendarId : string) (timeMin timeMax : datetime)
| EventsInsert (calendarId : string) (body : EventBody).

(** What [.execute()] does: it returns, raises [HttpError], or raises
    something else (a transport failure, say). *)
Inductive ListOutcome :=
| Listed (items : option (list Event))
| ListHttpError
| ListRaises (e : exn).

Inductive InsertOutcome :=
| Created (id : string)
| InsertHttpError
| InsertRaises (e : exn).

(** The client: each answer may depend on every call issued before. *)
Record Service := mk_service {
  events_list : list Call → string → datetime → datetime → ListOutcome;
  events_insert : list Call → string → EventBody → InsertOutcome
}.

Definition is_insert (c : Call) : bool :=
  match c with
  | EventsInsert _ _ => true
  | EventsList _ _ _ => false
  end.

(** A computation that may issue calls and may raise: it extends the
    history of calls, also when it raises. *)
Definition io (A : Type) : Type := list Call → result A * list Call.

Definition io_ret {A} (a : A) : io A := λ tr, (Ok a, tr).

Definition io_bind {A B} (m : io A) (k : A → io B) : io B := λ tr,
  match m tr with
  | (Ok a, tr') => k a tr'
  | (Raise e, tr') => (Raise e, tr')
  end.

Definition io_raise {A} (e : exn) : io A := λ tr, (Raise e, tr).

Definition io_lift {A} (r : result A) : io A := λ tr, (r, tr).

Definition list_execute (svc : Service) (calendar_id : string)
    (timeMin timeMax : datetime) : io ListOutcome := λ tr,
  (Ok (events_list svc tr calendar_id timeMin timeMax),
   tr ++ [EventsList calendar_id timeMin timeMax]).

Definition insert_execute (svc : Service) (calendar_id : string)
    (body : EventBody) : io InsertOutcome := λ tr,
  (Ok (events_insert svc tr calendar_id body),
   tr ++ [EventsInsert calendar_id body]).

End Calendar.

Notation "'let*' x := m 'in' k" := (Calendar.io_bind m (λ x, k))
  (at level 10, x name, m at level 100, k at level 200, only parsing).

(** ** [services/calendar_service.py] *)

Module CalendarService.
Import TimeUtils.
Export Calendar.

Record t := mk {
  calendar_id : string;
  service : option Service
}.

(** the loop over the listed events: [false] at the first event that
    carries the court marker and the facility id *)
Fixpoint scan_events (court_number : Z) (facility_id : string)
    (events : list Event) : bool :=
  match events with
  | [] => true
  | event :: rest =>
      let event_summary := default "" (summary event) in
      let event_description := default "" (description event) in
      if contains ("Court " +:+ str_of_Z court_number) event_summary
         && (contains facility_id event_description
             || contains facility_id event_summary)
      then false
      else scan_events court_number facility_id rest
  end.

Definition check_court_availability (self : t) (court_number : Z)
    (start_dt end_dt : datetime) (facility_id : string) : io bool :=
  match service self with
  | None => io_ret true
  | Some svc =>
      let* events_result := list_execute svc (calendar_id self) start_dt end_dt in
      match events_result with
      | Listed items => io_ret (scan_events court_number facility_id (default [] items))
      | ListHttpError => io_ret true
      | ListRaises e => io_raise e
      end
  end.

(** the loop of [get_available_courts] over the remaining court numbers *)
Fixpoint available_courts_loop (self : t) (facility_id : string)
    (start_dt end_dt : datetime) (courts : list Z) (available_courts : list Z)
  : io (list Z) :=
  match courts with
  | [] => io_ret available_courts
  | court_num :: rest =>
      let* free := check_court_availability self court_num start_dt end_dt facility_id in
      available_courts_loop self facility_id start_dt end_dt rest
        (if free then available_courts ++ [court_num] else available_courts)
  end.

Definition get_available_courts (self : t) (facility_id : string)
    (total_courts : Z) (start_dt end_dt : datetime) : io (list Z) :=
  available_courts_loop self facility_id start_dt end_dt (seqZ 1 total_courts) [].

Definition create_booking_event (self : t)
    (facility_name facility_id : string) (court_number : Z)
    (customer_name customer_phone : string) (start_dt end_dt : datetime)
    (date_str start_time : string) (duration_minutes : Z) : io (option string) :=
  match service self with
  | None => io_ret None
  | Some svc =>
      let event_title :=
        "Court " +:+ str_of_Z court_number +:+ " Booking - " +:+ customer_name in
      let event_description :=
        "Customer Name: " +:+ customer_name +:+ newline +:+
        "Phone: " +:+ customer_phone +:+ newline +:+
        "Facility: " +:+ facility_name +:+ " (" +:+ facility_id +:+ ")" +:+ newline +:+
        "Court Number: " +:+ str_of_Z court_number +:+ newline +:+
        "Date: " +:+ date_str +:+ newline +:+
        "Start Time: " +:+ start_time +:+ newline +:+
        "End Time: " +:+ strftime_HM end_dt +:+ newline +:+
        "Duration: " +:+ str_of_Z duration_minutes +:+ " minutes" in
      let event := mk_body event_title event_description start_dt end_dt in
      let* created_event := insert_execute svc (calendar_id self) event in
      match created_event with
      | Created id => io_ret (Some id)
      | InsertHttpError => io_ret None
      | InsertRaises e => io_raise e
      end
  end.

End CalendarService.

(** ** [schemas/] and [services/facility_service.py] *)

(** The facility fields the booking engine reads. *)
Module Facility.
Record t := mk {
  facility_id : string;
  facility_name : string;
  phone_number : string;
  number_of_courts : Z;
  open_time : string;
  close_time : string;
  booking_rules : gmap string pyval
}.
End Facility.

Module FacilityService.
Record t := mk {
  facilities : gmap string Facility.t;
  phone_to_facility : gmap string string
}.

Definition get_facility_by_id (self : t) (facility_id : string)
  : option Facility.t :=
  facilities self !! facility_id.

Definition get_facility_by_phone (self : t) (phone_number : string)
  : option Facility.t :=
  match phone_to_facility self !! phone_number with
  | Some facility_id =>
      if String.eqb facility_id "" then None else facilities self !! facility_id
  | None => None
  end.
End FacilityService.

Module CheckAvailabilityRequest.
Record t := mk {
  facility_id : string;
  date : string;
  start_time : string;
  duration_minutes : Z;
  number_of_courts : Z
}.
End CheckAvailabilityRequest.

Module CheckAvailabilityResponse.
(** the two shapes of the [data] dictionary *)
Inductive payload :=
| Shortfall (available_courts : list Z) (requested_courts : Z)
| Slot (available_courts : list Z) (total_courts : Z) (date start_time : string)
       (duration_minutes : Z).

Record t := mk {
  success : bool;
  available : bool;
  free_courts : list Z;
  reason_if_not_available : option string;
  data : option payload;
  error : option string
}.
End CheckAvailabilityResponse.

Module CreateBookingRequest.
Record t := mk {
  facility_id : string;
  date : string;
  start_time : string;
  duration_minutes : Z;
  name : string;
  phone_number : string;
  court_numbers : list Z
}.
End CreateBookingRequest.

Module CreateBookingResponse.
Record payload := mk_payload {
  facility : string;
  court_numbers : list Z;
  date : string;
  start_time : string;
  end_time : string;
  duration_minutes : Z;
  customer_name : string;
  customer_phone : string;
  booking_ids : list string
}.

Record t := mk {
  success : bool;
  booking_id : option string;
  message : option string;
  data : option payload;
  error : option string
}.
End CreateBookingResponse.

(** ** [services/booking_service.py] *)

Module BookingService.
Import TimeUtils SlotUtils.
Export Calendar.

(** The module-level singletons the service reads, and the day
    [datetime.today()] falls on. *)
Record Env := mk_env {
  facility_service : FacilityService.t;
  calendar_service : CalendarService.t;
  today : Z
}.

Module Rq := CheckAvailabilityRequest.
Module Rs := CheckAvailabilityResponse.

(** the [try] block of [check_availability] *)
Definition check_availability_body (env : Env) (request : Rq.t) : io Rs.t :=
  match FacilityService.get_facility_by_id (facility_service env) (Rq.facility_id request) with
  | None =>
      io_ret (Rs.mk false false [] None None
                (Some ("Facility not found: " +:+ Rq.facility_id request)))
  | Some facility =>
      let* slot := io_lift (validate_booking_slot (Rq.start_time request)
                              (Rq.duration_minutes request)
                              (Facility.booking_rules facility)) in
      if negb slot.1 then
        io_ret (Rs.mk false false [] (Some slot.2) None None)
      else
        let* end_time := io_lift (calculate_end_time (today env)
                                    (Rq.start_time request) (Rq.duration_minutes request)) in
        let hours := is_within_operating_hours (Rq.start_time request) end_time
                       (Facility.open_time facility) (Facility.close_time facility) in
        if negb hours.1 then
          io_ret (Rs.mk false false [] (Some hours.2) None None)
        else
          let* start_dt := io_lift (combine_datetime (Rq.date request) (Rq.start_time request)) in
          let* end_dt := io_lift (get_end_datetime start_dt (Rq.duration_minutes request)) in
          let* available_courts :=
            CalendarService.get_available_courts (calendar_service env)
              (Facility.facility_id facility) (Facility.number_of_courts facility)
              start_dt end_dt in
          if Z.of_nat (length available_courts) <? Rq.number_of_courts request then
            io_ret (Rs.mk true false available_courts
                      (Some ("Only " +:+ str_of_Z (Z.of_nat (length available_courts))
                               +:+ " court(s) available, but "
                               +:+ str_of_Z (Rq.number_of_courts request) +:+ " requested"))
                      (Some (Rs.Shortfall available_courts (Rq.number_of_courts request)))
                      None)
          else
            io_ret (Rs.mk true true available_courts None
                      (Some (Rs.Slot available_courts (Facility.number_of_courts facility)
                               (Rq.date request) (Rq.start_time request)
                               (Rq.duration_minutes request)))
                      None)
  end.

(** [check_availability]: the body under its catch-all handler. It returns
    the response and the history of calendar calls extended by its own. *)
Definition check_availability (env : Env) (request : Rq.t)
    (tr : list Call) : Rs.t * list Call :=
  match check_availability_body env request tr with
  | (Ok response, tr') => (response, tr')
  | (Raise e, tr') =>
      (Rs.mk false false [] None None
         (Some ("Error checking availability: " +:+ exn_str e)), tr')
  end.

Module Bq := CreateBookingRequest.
Module Bs := CreateBookingResponse.

(** the first requested court that is not in the free list *)
Fixpoint first_unavailable (court_numbers available_courts : list Z) : option Z :=
  match court_numbers with
  | [] => None
  | court_num :: rest =>
      if bool_decide (court_num ∈ available_courts)
      then first_unavailable rest available_courts
      else Some court_num
  end.

(** the write loop: one insert per requested court, collecting the ids *)
Fixpoint book_courts (env : Env) (facility : Facility.t) (request : Bq.t)
    (start_dt end_dt : datetime) (courts : list Z) (booking_ids : list string)
  : io (list string) :=
  match courts with
  | [] => io_ret booking_ids
  | court_num :: rest =>
      let* event_id :=
        CalendarService.create_booking_event (calendar_service env)
          (Facility.facility_name facility) (Facility.facility_id facility)
          court_num (Bq.name request) (Bq.phone_number request)
          start_dt end_dt (Bq.date request) (Bq.start_time request)
          (Bq.duration_minutes request) in
      book_courts env facility request start_dt end_dt rest
        (match event_id with
         | Some id => if String.eqb id "" then booking_ids else booking_ids ++ [id]
         | None => booking_ids
         end)
  end.

Definition failure (error : string) : Bs.t :=
  Bs.mk false None None None (Some error).

(** the [try] block of [create_booking] *)
Definition create_booking_body (env : Env) (request : Bq.t) : io Bs.t :=
  match CalendarService.service (calendar_service env) with
  | None =>
      io_ret (failure "Calendar service is not initialized. Please configure Google Calendar integration.")
  | Some _ =>
  match FacilityService.get_facility_by_id (facility_service env) (Bq.facility_id request) with
  | None => io_ret (failure ("Facility not found: " +:+ Bq.facility_id request))
  | Some facility =>
      let* slot := io_lift (validate_booking_slot (Bq.start_time request)
                              (Bq.duration_minutes request)
                              (Facility.booking_rules facility)) in
      if negb slot.1 then io_ret (failure ("Invalid slot: " +:+ slot.2))
      else
        let courts := validate_court_numbers (Bq.court_numbers request)
                        (Facility.number_of_courts facility) in
        if negb courts.1 then io_ret (failure ("Invalid court numbers: " +:+ courts.2))
        else
          let* end_time := io_lift (calculate_end_time (today env)
                                      (Bq.start_time request) (Bq.duration_minutes request)) in
          let hours := is_within_operating_hours (Bq.start_time request) end_time
                         (Facility.open_time facility) (Facility.close_time facility) in
          if negb hours.1 then io_ret (failure ("Outside operating hours: " +:+ hours.2))
          else
            let* start_dt := io_lift (combine_datetime (Bq.date request) (Bq.start_time request)) in
            let* end_dt := io_lift (get_end_datetime start_dt (Bq.duration_minutes request)) in
            let* available_courts :=
              CalendarService.get_available_courts (calendar_service env)
                (Facility.facility_id facility) (Facility.number_of_courts facility)
                start_dt end_dt in
            match first_unavailable (Bq.court_numbers request) available_courts with
            | Some court_num =>
                io_ret (failure ("Court " +:+ str_of_Z court_num
                                   +:+ " is not available at the requested time"))
            | None =>
                let* booking_ids :=
                  book_courts env facility request start_dt end_dt
                    (Bq.court_numbers request) [] in
                match booking_ids with
                | [] => io_ret (failure "Failed to create calendar events")
                | _ =>
                    io_ret (Bs.mk true
                      (Some (str_join "," booking_ids))
                      (Some ("Booking confirmed for " +:+ Bq.name request +:+ "! Courts "
                               +:+ str_join ", " (str_of_Z <$> Bq.court_numbers request)
                               +:+ " on " +:+ Bq.date request
                               +:+ " at " +:+ Bq.start_time request
                               +:+ " for " +:+ str_of_Z (Bq.duration_minutes request)
                               +:+ " minutes."))
                      (Some (Bs.mk_payload (Facility.facility_name facility)
                               (Bq.court_numbers request) (Bq.date request)
                               (Bq.start_time request) end_time
                               (Bq.duration_minutes request) (Bq.name request)
                               (Bq.phone_number request) booking_ids))
                      None)
                end
            end
  end
  end.

(** [create_booking]: the body under its catch-all handler. *)
Definition create_booking (env : Env) (request : Bq.t)
    (tr : list Call) : Bs.t * list Call :=
  match create_booking_body env request tr with
  | (Ok response, tr') => (response, tr')
  | (Raise e, tr') => (failure ("Error creating booking: " +:+ exn_str e), tr')
  end.

End BookingService.

(** ** Vocabulary of the specification *)

Module Spec.
Import TimeUtils CalendarService.

(** A well-formed wall-clock time: two digits, a colon, two digits. *)
Definition hhmm (h m : Z) : string := two_digits h +:+ ":" +:+ two_digits m.

(** the hour and minute of a wall-clock time *)
Definition is_time (h m : Z) : Prop := 0 ≤ h < 24 ∧ 0 ≤ m < 60.

(** minutes since midnight *)
Definition minutes (t : time) : Z := hour t * 60 + minute t.

Definition parses_to (h m : Z) (s : string) : bool :=
  match parse_time s with
  | Ok t => (hour t =? h) && (minute t =? m)
  | Raise _ => false
  end.

(** The history at which the resolver reads the calendar for [court]: one
    list call was issued for each court before it. *)
Definition history_at (self : t) (start_dt end_dt : datetime) (tr : list Call)
    (court : Z) : list Call :=
  tr ++ replicate (Z.to_nat (court - 1)) (EventsList (calendar_id self) start_dt end_dt).

(** "The external store reports the court free": the answer of
    [is_court_free] when the resolver asks it. *)
Definition reports_free (self : t) (facility_id : string)
    (start_dt end_dt : datetime) (tr : list Call) (court : Z) : bool :=
  match (check_court_availability self court start_dt end_dt facility_id
           (history_at self start_dt end_dt tr court)).1 with
  | Ok free => free
  | Raise _ => false
  end.

(** the outcome of the read the resolver issues for [court] *)
Definition read_outcome (svc : Service) (self : t) (start_dt end_dt : datetime)
    (tr : list Call) (court : Z) : ListOutcome :=
  events_list svc (history_at self start_dt end_dt tr court)
    (calendar_id self) start_dt end_dt.

Definition read_raises (o : ListOutcome) : bool :=
  match o with
  | ListRaises _ => true
  | _ => false
  end.

(** the insert calls among the calls a computation added to [tr] *)
Definition inserts_since (tr tr' : list Call) : list Call :=
  filter (λ c, is_insert c = true) (drop (length tr) tr').

End Spec.

(** ** A concrete deployment

    The facility of the specification's scenario: open 06:00 to 22:00, four
    courts, hourly slots of at least 60 minutes. *)

Module Scenario.
Import TimeUtils CalendarService BookingService.

Definition rules : gmap string pyval :=
  <["minimum_duration" := PInt 60]>
    (<["duration_multiples" := PInt 60]> (<["fixed_slots" := PBool true]> ∅)).

Definition arena : Facility.t :=
  Facility.mk "arena_1" "Arena One" "+910000000001" 4 "06:00" "22:00" rules.

Definition directory : FacilityService.t :=
  FacilityService.mk (<["arena_1" := arena]> ∅) (<["+910000000001" := "arena_1"]> ∅).

Definition court2_booked : Event :=
  mk_event (Some "Court 2 Booking - Bob") (Some "Facility: Arena One (arena_1)").

(** A calendar where court 2 is taken and every insert is accepted. *)
Definition healthy : Service :=
  mk_service (λ _ _ _ _, Listed (Some [court2_booked]))
             (λ _ _ body, Created ("evt:" +:+ body_summary body)).

(** The same calendar, except that the insert for court 3 is answered with
    an HTTP error. *)
Definition flaky_insert : Service :=
  mk_service (λ _ _ _ _, Listed (Some [court2_booked]))
             (λ _ _ body,
                if contains "Court 3" (body_summary body) then InsertHttpError
                else Created ("evt:" +:+ body_summary body)).

(** A calendar that cannot be reached: the transport raises. *)
Definition unreachable : Service :=
  mk_service (λ _ _ _ _, ListRaises (OtherError "Unable to find the server"))
             (λ _ _ _, InsertRaises (OtherError "Unable to find the server")).

(** A calendar that answers every call with an HTTP error. *)
Definition refusing : Service :=
  mk_service (λ _ _ _ _, ListHttpError) (λ _ _ _, InsertHttpError).

(** A calendar whose first read fails with an HTTP error while the later
    ones list court 2 as taken. *)
Definition first_read_fails : Service :=
  mk_service (λ tr _ _ _, match tr with
                          | [] => ListHttpError
                          | _ => Listed (Some [court2_booked])
                          end)
             (λ _ _ body, Created ("evt:" +:+ body_summary body)).

Definition env_of (svc : option Service) : Env :=
  mk_env directory (CalendarService.mk "primary" svc) 739245.

Definition slot_start : datetime := mk_datetime 739245 840.
Definition slot_end : datetime := mk_datetime 739245 900.

Definition check (start_time : string) (duration courts : Z) : Rq.t :=
  Rq.mk "arena_1" "2024-12-25" start_time duration courts.

Definition booking (courts : list Z) : Bq.t :=
  Bq.mk "arena_1" "2024-12-25" "14:00" 60 "Ann" "+919876543210" courts.

(** The scenario's rules with a minimum of 90 minutes. *)
Definition long_minimum : gmap string pyval :=
  <["minimum_duration" := PInt 90]> rules.

(** A request for no court at all on a date that is not a date. *)
Definition undated : Rq.t := Rq.mk "arena_1" "tomorrow" "14:00" 60 0.

(** A request for no court at all on the first day of the calendar. *)
Definition first_day : Rq.t := Rq.mk "arena_1" "0001-01-01" "14:00" 60 0.

(** The scenario's rules with a multiple of zero. *)
Definition zero_multiple : gmap string pyval :=
  <["duration_multiples" := PInt 0]> rules.

(** Rules that name a minimum of 90 minutes and nothing else. *)
Definition minimum_only : gmap string pyval :=
  <["minimum_duration" := PInt 90]> ∅.

End Scenario.

(** ** More vocabulary *)

Module Vocabulary.
Import TimeUtils CalendarService.

(** the first of some time strings that [parse_time] refuses *)
Definition first_malformed_time (times : list string) : option string :=
  List.find (λ s, match parse_time s with Ok _ => false | Raise _ => true end) times.

(** a [datetime] that Python can hold: a date of the years 1..9999 and a
    minute of the day *)
Definition valid_datetime (dt : datetime) : Prop :=
  1 ≤ ordinal dt ≤ MAXORDINAL ∧ 0 ≤ minute_of_day dt < 1440.

(** an inserted event as a later list call returns it *)
Definition listed (body : EventBody) : Event :=
  mk_event (Some (body_summary body)) (Some (body_description body)).

(** a calendar whose reads do not depend on the calls issued before *)
Definition history_blind (svc : Service) : Prop :=
  ∀ h1 h2 calendar_id timeMin timeMax,
    events_list svc h1 calendar_id timeMin timeMax
    = events_list svc h2 calendar_id timeMin timeMax.

(** a calendar that accepts every insert with a non-empty event id *)
Definition accepts_inserts (svc : Service) : Prop :=
  ∀ h calendar_id body,
    ∃ id, events_insert svc h calendar_id body = Created id ∧ id ≠ "".

End Vocabulary.

(** ** [FacilityService.load_facilities] and the start of the application *)

Module FacilityLoading.
Import FacilityService.

(** [load_facilities] from the parsed JSON object on: [items] are
    [data.items()] in file order, each value as the [Facility] constructor
    returns it, [None] when that validation raises. The dictionaries are
    filled item by item, so an exception leaves the items before it loaded. *)
Fixpoint load_facilities (self : FacilityService.t)
    (items : list (string * option Facility.t)) : result unit * FacilityService.t :=
  match items with
  | [] => (Ok tt, self)
  | (facility_id, None) :: _ =>
      (Raise (OtherError "validation error for Facility"), self)
  | (facility_id, Some facility) :: rest =>
      load_facilities
        (mk (<[facility_id := facility]> (facilities self))
            (<[Facility.phone_number facility := facility_id]> (phone_to_facility self)))
        rest
  end.

(** the directory the application serves after [lifespan] has started it:
    the exception of a failed load is logged and dropped *)
Definition started (items : list (string * option Facility.t)) : FacilityService.t :=
  (load_facilities (mk ∅ ∅) items).2.

(** every item passes the validation *)
Definition validated (items : list (string * option Facility.t)) : Prop :=
  Forall (λ item, is_Some item.2) items.
End FacilityLoading.

(** ** A directory of two facilities and a third that shares a number *)

Module Directory.
Import CalendarService.

Definition calendar : CalendarService.t :=
  CalendarService.mk "primary" (Some Scenario.healthy).

Definition annex : Facility.t :=
  Facility.mk "annex_2" "Annex Two" "+910000000002" 12 "07:00" "21:00" Scenario.rules.

(** a later entry that reuses the arena's phone number *)
Definition twin : Facility.t :=
  Facility.mk "twin_3" "Twin Three" "+910000000001" 2 "06:00" "22:00" Scenario.rules.

Definition items : list (string * option Facility.t) :=
  [("arena_1", Some Scenario.arena); ("annex_2", Some annex)].

End Directory.

Section TimeFacts.
Import TimeUtils Spec.

Lemma parse_time_hhmm_table :
  forallb (λ h, forallb (λ m, parses_to h m (hhmm h m)) (seqZ 0 60)) (seqZ 0 24) = true.
Proof. vm_compute. reflexivity. Qed.

Lemma parse_time_hhmm h m :
  0 ≤ h < 24 → 0 ≤ m < 60 → parse_time (hhmm h m) = Ok (mk_time h m).
Proof.
  intros Hh Hm.
  pose proof parse_time_hhmm_table as T.
  rewrite forallb_forall in T.
  assert (In h (seqZ 0 24)) as Ih by (apply list_elem_of_In, elem_of_seqZ; lia).
  specialize (T h Ih). rewrite forallb_forall in T.
  assert (In m (seqZ 0 60)) as Im by (apply list_elem_of_In, elem_of_seqZ; lia).
  specialize (T m Im). unfold parses_to in T.
  destruct (parse_time (hhmm h m)) as [[h' m']|]; [|discriminate].
  simpl in T. apply andb_prop in T as [E1 E2].
  apply Z.eqb_eq in E1, E2. by subst.
Qed.

Lemma time_lt_minutes a b :
  0 ≤ minute a < 60 → 0 ≤ minute b < 60 →
  time_lt a b = true ↔ minutes a < minutes b.
Proof.
  intros Ha Hb. unfold time_lt, minutes.
  rewrite orb_true_iff, andb_true_iff, !Z.ltb_lt, Z.eqb_eq. lia.
Qed.

(** The decision of the operating-hours check once its four arguments
    parse. *)
Lemma is_within_operating_hours_parsed start_time end_time open_time close_time s e o c :
  parse_time start_time = Ok s → parse_time end_time = Ok e →
  parse_time open_time = Ok o → parse_time close_time = Ok c →
  is_within_operating_hours start_time end_time open_time close_time =
    if time_lt s o then (false, "Facility opens at " +:+ open_time)
    else if time_lt c e then (false, "Facility closes at " +:+ close_time)
    else (true, "").
Proof.
  intros Hs He Ho Hc. unfold is_within_operating_hours.
  rewrite Hs, He, Ho, Hc. simpl.
  destruct (time_lt s o); [done|]. by destruct (time_lt c e).
Qed.

End TimeFacts.

Section OperatingHours.
Import TimeUtils Spec.

(** C5, as the code decides it. For well-formed HH:MM times the check fails
    with "Facility opens at X" exactly when start < open; it fails with
    "Facility closes at X" exactly when start >= open and end > close (the
    opening test comes first); and it succeeds exactly when start >= open and
    end <= close, so the boundaries start = open and end = close pass. *)
Theorem operating_hours_decision hs ms he me ho mo hc mc :
  is_time hs ms → is_time he me → is_time ho mo → is_time hc mc →
  let verdict :=
    is_within_operating_hours (hhmm hs ms) (hhmm he me) (hhmm ho mo) (hhmm hc mc) in
  (verdict = (false, "Facility opens at " +:+ hhmm ho mo)
     ↔ hs * 60 + ms < ho * 60 + mo) ∧
  (verdict = (false, "Facility closes at " +:+ hhmm hc mc)
     ↔ ho * 60 + mo ≤ hs * 60 + ms ∧ hc * 60 + mc < he * 60 + me) ∧
  (verdict = (true, "")
     ↔ ho * 60 + mo ≤ hs * 60 + ms ∧ he * 60 + me ≤ hc * 60 + mc).
Proof.
  intros [Hhs Hms] [Hhe Hme] [Hho Hmo] [Hhc Hmc] verdict. subst verdict.
  rewrite (is_within_operating_hours_parsed _ _ _ _
             (mk_time hs ms) (mk_time he me) (mk_time ho mo) (mk_time hc mc))
    by (apply parse_time_hhmm; assumption).
  pose proof (time_lt_minutes (mk_time hs ms) (mk_time ho mo) Hms Hmo) as Lo.
  pose proof (time_lt_minutes (mk_time hc mc) (mk_time he me) Hmc Hme) as Lc.
  unfold minutes in Lo, Lc. simpl in Lo, Lc.
  destruct (time_lt (mk_time hs ms) (mk_time ho mo)).
  - assert (hs * 60 + ms < ho * 60 + mo) by (by apply Lo).
    repeat split; intros; try done; try lia.
  - assert (¬ hs * 60 + ms < ho * 60 + mo) by (intros ?%Lo; done).
    destruct (time_lt (mk_time hc mc) (mk_time he me)).
    + assert (hc * 60 + mc < he * 60 + me) by (by apply Lc).
      repeat split; intros; try done; try lia.
    + assert (¬ hc * 60 + mc < he * 60 + me) by (intros ?%Lc; done).
      repeat split; intros; try done; try lia.
Qed.

(** The decision at 05:00-06:00 against 06:00-22:00. *)
Lemma operating_hours_decision_witness :
  is_time 5 0 ∧ is_time 6 0 ∧ is_time 6 0 ∧ is_time 22 0 ∧
  (is_within_operating_hours "05:00" "06:00" "06:00" "22:00"
     = (false, "Facility opens at 06:00") ↔ 5 * 60 + 0 < 6 * 60 + 0).
Proof.
  assert (is_time 5 0 ∧ is_time 6 0 ∧ is_time 22 0) as (H5 & H6 & H22)
    by (unfold is_time; lia).
  exact (conj H5 (conj H6 (conj H6 (conj H22
           (proj1 (operating_hours_decision 5 0 6 0 6 0 22 0 H5 H6 H6 H22)))))).
Defined.

(** C5 as stated fails. With start 05:00 and end 23:00 against 06:00-22:00
    the end is after closing, yet the reason is the opening one; and with
    start = open = 06:00 and end 23:00 the check fails although the start is
    boundary-equal. *)
Lemma closes_reason_hidden_by_opens_reason :
  ¬ (is_within_operating_hours "05:00" "23:00" "06:00" "22:00"
       = (false, "Facility closes at 22:00") ↔ 22 * 60 + 0 < 23 * 60 + 0)
  ∧ ¬ (6 * 60 + 0 = 6 * 60 + 0 →
       is_within_operating_hours "06:00" "23:00" "06:00" "22:00" = (true, "")).
Proof.
  split.
  - intros [_ H]. assert (22 * 60 + 0 < 23 * 60 + 0) as L by lia.
    specialize (H L). vm_compute in H. discriminate H.
  - intros H. specialize (H eq_refl). vm_compute in H. discriminate H.
Qed.
End OperatingHours.

Section EndTime.
Import TimeUtils Spec.

Lemma calculate_end_time_wraps today h m d :
  0 ≤ h < 24 → 0 ≤ m < 60 →
  Z.abs (d / 1440) ≤ 999999999 →
  1 ≤ today + (h * 60 + m + d) / 1440 ≤ MAXORDINAL →
  calculate_end_time today (hhmm h m) d =
    Ok (hhmm ((h * 60 + m + d) mod 1440 / 60) ((h * 60 + m + d) mod 1440 mod 60)).
Proof.
  intros Hh Hm Hd Hord. unfold calculate_end_time.
  rewrite parse_time_hhmm by assumption. simpl.
  unfold timedelta. rewrite (proj2 (Z.leb_le _ _) Hd). simpl.
  unfold datetime_add. simpl.
  rewrite (proj2 (Z.leb_le _ _) (proj1 Hord)), (proj2 (Z.leb_le _ _) (proj2 Hord)).
  reflexivity.
Qed.

(** C8. The end time is computed on the clock face: it is the start plus the
    duration modulo 24 hours, formatted as HH:MM. So 21:00 plus 240 minutes
    is "01:00", which is not after a closing time of "22:00": the
    operating-hours check passes although the slot runs past closing. *)
Theorem end_time_wraps_past_midnight :
  (∀ today h m d,
     is_time h m →
     Z.abs (d / 1440) ≤ 999999999 →
     1 ≤ today + (h * 60 + m + d) / 1440 ≤ MAXORDINAL →
     calculate_end_time today (hhmm h m) d =
       Ok (hhmm ((h * 60 + m + d) mod 1440 / 60) ((h * 60 + m + d) mod 1440 mod 60)))
  ∧
  (∀ today open_time o,
     1 ≤ today < MAXORDINAL →
     parse_time open_time = Ok o → time_lt (mk_time 21 0) o = false →
     calculate_end_time today "21:00" 240 = Ok "01:00" ∧
     is_within_operating_hours "21:00" "01:00" open_time "22:00" = (true, "")).
Proof.
  split.
  - intros today h m d [Hh Hm]. by apply calculate_end_time_wraps.
  - intros today open_time o Htoday Ho Hlt. split.
    + change "21:00" with (hhmm 21 0).
      rewrite calculate_end_time_wraps; [reflexivity|lia|lia|by compute|].
      change ((21 * 60 + 0 + 240) / 1440) with 1. lia.
    + rewrite (is_within_operating_hours_parsed "21:00" "01:00" open_time "22:00"
                 (mk_time 21 0) (mk_time 1 0) o (mk_time 22 0) eq_refl eq_refl Ho eq_refl).
      rewrite Hlt. reflexivity.
Qed.

(** The example of C8 on 2024-12-25 at a facility that opens at 06:00. *)
Lemma end_time_wraps_past_midnight_witness :
  (1 ≤ 739245 < MAXORDINAL) ∧ parse_time "06:00" = Ok (mk_time 6 0) ∧
  time_lt (mk_time 21 0) (mk_time 6 0) = false ∧
  calculate_end_time 739245 "21:00" 240 = Ok "01:00" ∧
  is_within_operating_hours "21:00" "01:00" "06:00" "22:00" = (true, "").
Proof.
  assert (1 ≤ 739245 < MAXORDINAL) as Hd by (unfold MAXORDINAL; lia).
  split; [exact Hd|]. split; [reflexivity|]. split; [reflexivity|].
  exact (proj2 end_time_wraps_past_midnight 739245 "06:00" (mk_time 6 0)
           Hd eq_refl eq_refl).
Defined.
End EndTime.

Section Alignment.
Import TimeUtils SlotUtils Spec.

Lemma alignment_hhmm_table :
  forallb (λ h, forallb (λ m,
    Bool.eqb (validate_slot_alignment (hhmm h m)).1 (m =? 0)) (seqZ 0 60)) (seqZ 0 24) = true.
Proof. vm_compute. reflexivity. Qed.

Lemma alignment_hhmm h m :
  0 ≤ h < 24 → 0 ≤ m < 60 →
  (validate_slot_alignment (hhmm h m)).1 = (m =? 0).
Proof.
  intros Hh Hm. pose proof alignment_hhmm_table as T.
  rewrite forallb_forall in T.
  assert (In h (seqZ 0 24)) as Ih by (apply list_elem_of_In, elem_of_seqZ; lia).
  specialize (T h Ih). rewrite forallb_forall in T.
  assert (In m (seqZ 0 60)) as Im by (apply list_elem_of_In, elem_of_seqZ; lia).
  specialize (T m Im). by apply Bool.eqb_prop in T.
Qed.

Lemma alignment_accepts_iff s :
  (validate_slot_alignment s).1 = true ↔
  ∃ hour minute, str_split ":" s = [hour; minute] ∧ int_of_str minute = Some 0.
Proof.
  unfold validate_slot_alignment. split.
  - destruct (str_split ":" s) as [|hour [|minute [|? ?]]]; simpl; try discriminate.
    destruct (int_of_str minute) as [n|] eqn:E; simpl; try discriminate.
    destruct (n =? 0) eqn:E0; simpl; try discriminate.
    apply Z.eqb_eq in E0. subst n. eauto.
  - intros (hour & minute & -> & ->). reflexivity.
Qed.

Lemma alignment_format_error s :
  (∀ hour minute, str_split ":" s = [hour; minute] → int_of_str minute = None) →
  validate_slot_alignment s = (false, "Invalid time format: " +:+ s +:+ ". Expected HH:MM").
Proof.
  intros H. unfold validate_slot_alignment.
  destruct (str_split ":" s) as [|hour [|minute [|? ?]]]; try reflexivity.
  by rewrite (H hour minute eq_refl).
Qed.

Lemma booking_slot_misaligned s d (rules : gmap string pyval) :
  truthy (default (PBool true) (rules !! "fixed_slots")) = true →
  (validate_slot_alignment s).1 = false →
  validate_booking_slot s d rules = Ok (false, (validate_slot_alignment s).2).
Proof.
  intros Hf Ha. unfold validate_booking_slot. rewrite Hf, Ha. reflexivity.
Qed.

(** C7 on the start time "xx:00" under rules with [fixed_slots] on. The text
    is not of the form HH:MM with a numeric hour, and the time parser refuses
    it. The alignment check unpacks the two fields of the split and converts
    the minute alone, so the hour is never read: it answers [(True, "")]
    where its [except] branch would answer "Invalid time format: xx:00.
    Expected HH:MM", and [validate_booking_slot] accepts the slot. The format
    error surfaces later, when [calculate_end_time] raises inside
    [check_availability], as the [error] of the catch-all handler and not as
    a reason of the slot validation. *)
Theorem slot_alignment_ignores_hour_field :
  str_split ":" "xx:00" = ["xx"; "00"]
  ∧ int_of_str "xx" = None
  ∧ parse_time "xx:00" = Raise (ValueError "Invalid time format: xx:00. Expected HH:MM format.")
  ∧ validate_slot_alignment "xx:00" = (true, "")
  ∧ truthy (default (PBool true) (Scenario.rules !! "fixed_slots")) = true
  ∧ validate_booking_slot "xx:00" 60 Scenario.rules = Ok (true, "")
  ∧ (BookingService.check_availability (Scenario.env_of (Some Scenario.healthy))
       (Scenario.check "xx:00" 60 1) []).1
    = CheckAvailabilityResponse.mk false false [] None None
        (Some "Error checking availability: Invalid time format: xx:00. Expected HH:MM format.").
Proof. vm_compute. repeat split; reflexivity. Qed.
End Alignment.

Section Strings.
Lemma prefix_append n b : String.prefix n (n +:+ b) = true.
Proof.
  induction n as [|a n IH]; simpl; [by destruct b|].
  destruct (ascii_dec a a); [exact IH|congruence].
Qed.

Lemma contains_prefix n h : String.prefix n h = true → contains n h = true.
Proof. intros H. destruct h; cbn [contains]; rewrite H; reflexivity. Qed.

Lemma contains_here n b : contains n (n +:+ b) = true.
Proof. apply contains_prefix, prefix_append. Qed.

Lemma contains_append a n h : contains n h = true → contains n (a +:+ h) = true.
Proof.
  intros H. induction a as [|c a IH]; simpl; [exact H|].
  rewrite IH. apply orb_true_r.
Qed.

Lemma contains_middle a n b : contains n (a +:+ n +:+ b) = true.
Proof. apply contains_append, contains_here. Qed.
End Strings.

Section Duration.
Import SlotUtils.

Lemma validate_duration_short d minimum multiple :
  d < int_of minimum →
  validate_duration d minimum multiple =
    Ok (false, "Duration must be at least " +:+ fmt minimum +:+ " minutes").
Proof.
  intros H. unfold validate_duration.
  by rewrite (proj2 (Z.ltb_lt _ _) H).
Qed.

Lemma validate_duration_not_multiple d minimum multiple :
  int_of minimum ≤ d → int_of multiple ≠ 0 → ¬ (int_of multiple | d) →
  validate_duration d minimum multiple =
    Ok (false, "Duration must be a multiple of " +:+ fmt multiple
                 +:+ " minutes. Got " +:+ str_of_Z d).
Proof.
  intros Hmin Hnz Hdiv. unfold validate_duration.
  rewrite (proj2 (Z.ltb_ge _ _) Hmin).
  rewrite (proj2 (Z.eqb_neq _ _) Hnz).
  assert (d mod int_of multiple ≠ 0) as Hmod
    by (intros E; apply Hdiv, Z.mod_divide; assumption).
  by rewrite (proj2 (Z.eqb_neq _ _) Hmod).
Qed.

Lemma validate_booking_slot_aligned start d (rules : gmap string pyval) :
  (truthy (default (PBool true) (rules !! "fixed_slots")) = true →
   (validate_slot_alignment start).1 = true) →
  validate_booking_slot start d rules =
    rbind (validate_duration d (default (PInt 60) (rules !! "minimum_duration"))
             (default (PInt 60) (rules !! "duration_multiples")))
      (λ dur, if negb dur.1 then Ok (false, dur.2) else Ok (true, "")).
Proof.
  intros Ha. unfold validate_booking_slot.
  destruct (truthy (default (PBool true) (rules !! "fixed_slots"))); [|reflexivity].
  by rewrite Ha.
Qed.

(** The verdict on a slot whose start passes the alignment: the tests of
    [validate_duration] in their order. *)
Lemma validate_booking_slot_verdict start d (rules : gmap string pyval) :
  let minimum := default (PInt 60) (rules !! "minimum_duration") in
  let multiple := default (PInt 60) (rules !! "duration_multiples") in
  (truthy (default (PBool true) (rules !! "fixed_slots")) = true →
   (validate_slot_alignment start).1 = true) →
  validate_booking_slot start d rules =
    if d <? int_of minimum then
      Ok (false, "Duration must be at least " +:+ fmt minimum +:+ " minutes")
    else if int_of multiple =? 0 then
      Raise (ZeroDivisionError "integer modulo by zero")
    else if d mod int_of multiple =? 0 then Ok (true, "")
    else Ok (false, "Duration must be a multiple of " +:+ fmt multiple
                      +:+ " minutes. Got " +:+ str_of_Z d).
Proof.
  intros minimum multiple Ha.
  rewrite validate_booking_slot_aligned by assumption.
  fold minimum multiple. unfold validate_duration.
  destruct (d <? int_of minimum); [reflexivity|].
  destruct (int_of multiple =? 0); [reflexivity|].
  by destruct (d mod int_of multiple =? 0).
Qed.

Lemma validate_duration_zero_multiple d minimum multiple :
  int_of minimum ≤ d → int_of multiple = 0 →
  validate_duration d minimum multiple = Raise (ZeroDivisionError "integer modulo by zero").
Proof.
  intros Hmin Hz. unfold validate_duration.
  rewrite (proj2 (Z.ltb_ge _ _) Hmin).
  by rewrite (proj2 (Z.eqb_eq _ _) Hz).
Qed.

(** C6, as the code does it. For a start time that passes the alignment and a
    duration that is not a multiple of the configured multiple: below the
    minimum duration the slot is rejected with the reason that names the
    minimum; from the minimum on, with a nonzero multiple, it is rejected
    with the reason "Duration must be a multiple of M minutes. Got D", which
    contains the configured multiple; and from the minimum on with a multiple
    of zero nothing is returned, the modulo raises [ZeroDivisionError]. *)
Theorem non_multiple_duration_rejected start d (rules : gmap string pyval) :
  let minimum := default (PInt 60) (rules !! "minimum_duration") in
  let multiple := default (PInt 60) (rules !! "duration_multiples") in
  (truthy (default (PBool true) (rules !! "fixed_slots")) = true →
   (validate_slot_alignment start).1 = true) →
  ¬ (int_of multiple | d) →
  (d < int_of minimum →
   validate_booking_slot start d rules =
     Ok (false, "Duration must be at least " +:+ fmt minimum +:+ " minutes"))
  ∧ (int_of minimum ≤ d → int_of multiple ≠ 0 →
     ∃ reason,
       validate_booking_slot start d rules = Ok (false, reason)
       ∧ reason = "Duration must be a multiple of " +:+ fmt multiple
                    +:+ " minutes. Got " +:+ str_of_Z d
       ∧ contains (fmt multiple) reason = true)
  ∧ (int_of minimum ≤ d → int_of multiple = 0 →
     validate_booking_slot start d rules
       = Raise (ZeroDivisionError "integer modulo by zero")).
Proof.
  intros minimum multiple Ha Hdiv. split; [|split].
  - intros Hlt. rewrite validate_booking_slot_aligned by assumption.
    fold minimum multiple. by rewrite validate_duration_short.
  - intros Hmin Hnz. eexists. split; [|split; [reflexivity|]].
    + rewrite validate_booking_slot_aligned by assumption.
      fold minimum multiple. by rewrite validate_duration_not_multiple.
    + apply contains_middle.
  - intros Hmin Hz. rewrite validate_booking_slot_aligned by assumption.
    fold minimum multiple. by rewrite validate_duration_zero_multiple.
Qed.

(** 90 minutes at 14:00 under the scenario's rules. *)
Lemma non_multiple_duration_rejected_witness :
  (truthy (default (PBool true) (Scenario.rules !! "fixed_slots")) = true →
   (validate_slot_alignment "14:00").1 = true)
  ∧ ¬ (60 | 90) ∧ 60 ≤ 90 ∧ 60 ≠ 0
  ∧ ∃ reason,
      validate_booking_slot "14:00" 90 Scenario.rules = Ok (false, reason)
      ∧ reason = "Duration must be a multiple of 60 minutes. Got 90"
      ∧ contains "60" reason = true.
Proof.
  assert (¬ (60 | 90)) as Hdiv by (intros [k Hk]; lia).
  assert (60 ≤ 90) as Hle by lia.
  assert (60 ≠ 0) as Hnz by lia.
  split; [reflexivity|]. split; [exact Hdiv|]. split; [exact Hle|]. split; [exact Hnz|].
  exact (proj1 (proj2 (non_multiple_duration_rejected "14:00" 90 Scenario.rules
                         (λ _, eq_refl) Hdiv)) Hle Hnz).
Defined.

(** C6 as stated fails. With a minimum of 90 and a multiple of 60, a duration
    of 30 is not a multiple of 60, and the reason does not contain 60: the
    minimum is tested first. And with a multiple of 0, which 90 is not a
    multiple of, no verdict is returned at all. *)
Lemma short_duration_reason_names_minimum :
  (validate_slot_alignment "14:00").1 = true
  ∧ ¬ (60 | 30)
  ∧ validate_booking_slot "14:00" 30 Scenario.long_minimum
      = Ok (false, "Duration must be at least 90 minutes")
  ∧ contains "60" "Duration must be at least 90 minutes" = false
  ∧ ¬ (0 | 90)
  ∧ validate_booking_slot "14:00" 90 Scenario.zero_multiple
      = Raise (ZeroDivisionError "integer modulo by zero").
Proof.
  split; [reflexivity|]. split; [intros [k Hk]; lia|]. split; [reflexivity|].
  split; [reflexivity|]. split; [intros [k Hk]; lia|]. reflexivity.
Qed.

(** C10. The keys a facility's rules omit take their defaults. Without
    [fixed_slots] the hour-boundary alignment is enforced: a misaligned start
    is rejected with the alignment's reason. Without [minimum_duration] the
    minimum is 60: for an aligned start, the slot is rejected with "Duration
    must be at least 60 minutes" exactly when the duration is below 60, and
    accepted exactly when it is at least 60 and a multiple of the (nonzero)
    configured multiple. Without [duration_multiples] the multiple is 60:
    for an aligned start and a duration that reaches the minimum, the slot
    is accepted exactly when 60 divides the duration, and otherwise rejected
    with "Duration must be a multiple of 60 minutes. Got D". With all three
    keys missing a slot is accepted exactly when its start is aligned and
    its duration is a multiple of 60 that is at least 60. Throughout,
    validating under rules that omit a key is validating under the rules
    with the default filled in. *)
Theorem booking_rule_defaults start d (rules : gmap string pyval) :
  let minimum := default (PInt 60) (rules !! "minimum_duration") in
  let multiple := default (PInt 60) (rules !! "duration_multiples") in
  let aligned :=
    truthy (default (PBool true) (rules !! "fixed_slots")) = true →
    (validate_slot_alignment start).1 = true in
  (rules !! "fixed_slots" = None → (validate_slot_alignment start).1 = false →
     validate_booking_slot start d rules = Ok (false, (validate_slot_alignment start).2))
  ∧ (rules !! "minimum_duration" = None → aligned →
     (validate_booking_slot start d rules
        = Ok (false, "Duration must be at least 60 minutes") ↔ d < 60)
     ∧ (validate_booking_slot start d rules = Ok (true, "")
          ↔ 60 ≤ d ∧ int_of multiple ≠ 0 ∧ (int_of multiple | d)))
  ∧ (rules !! "duration_multiples" = None → aligned → int_of minimum ≤ d →
     (validate_booking_slot start d rules = Ok (true, "") ↔ (60 | d))
     ∧ (¬ (60 | d) →
        validate_booking_slot start d rules
          = Ok (false, "Duration must be a multiple of 60 minutes. Got " +:+ str_of_Z d)))
  ∧ (rules !! "fixed_slots" = None → rules !! "minimum_duration" = None →
     rules !! "duration_multiples" = None →
     validate_booking_slot start d rules = Ok (true, "")
       ↔ (validate_slot_alignment start).1 = true ∧ 60 ≤ d ∧ (60 | d))
  ∧ (rules !! "fixed_slots" = None →
     validate_booking_slot start d rules
       = validate_booking_slot start d (<["fixed_slots" := PBool true]> rules))
  ∧ (rules !! "minimum_duration" = None →
     validate_booking_slot start d rules
       = validate_booking_slot start d (<["minimum_duration" := PInt 60]> rules))
  ∧ (rules !! "duration_multiples" = None →
     validate_booking_slot start d rules
       = validate_booking_slot start d (<["duration_multiples" := PInt 60]> rules)).
Proof.
  intros minimum multiple aligned.
  split; [|split; [|split; [|split]]].
  - intros Hf Ha. apply booking_slot_misaligned; [by rewrite Hf|exact Ha].
  - intros Hm Ha.
    rewrite (validate_booking_slot_verdict start d rules Ha).
    fold multiple. rewrite Hm. cbn [default int_of fmt].
    change (str_of_Z 60) with "60".
    destruct (Z.ltb_spec d 60) as [Hlt|Hge].
    { split; (split; [intros H|intros H]); try done; try lia; discriminate H. }
    destruct (Z.eqb_spec (int_of multiple) 0) as [Hz|Hnz].
    { split; (split; [intros H|intros H]); try lia; discriminate H. }
    destruct (Z.eqb_spec (d mod int_of multiple) 0) as [Hmod|Hmod].
    + apply Z.mod_divide in Hmod; [|done].
      split; (split; [intros H|intros H]); try done; try lia; discriminate H.
    + assert (¬ (int_of multiple | d)) as Hdiv
        by (intros Hd; apply Hmod; by apply Z.mod_divide).
      split; (split; [intros H|intros H]); try lia; try discriminate H.
      by destruct H as (_ & _ & H).
  - intros Hm Ha Hmin.
    rewrite (validate_booking_slot_verdict start d rules Ha).
    fold minimum. rewrite Hm. cbn [default int_of fmt].
    change (str_of_Z 60) with "60".
    rewrite (proj2 (Z.ltb_ge _ _) Hmin). change (60 =? 0) with false. cbn iota.
    destruct (Z.eqb_spec (d mod 60) 0) as [Hmod|Hmod].
    + apply Z.mod_divide in Hmod; [|done]. split; [done|]. intros H. by destruct H.
    + assert (¬ (60 | d)) as Hdiv by (intros Hd; apply Hmod; by apply Z.mod_divide).
      split; [|done]. split; [discriminate|done].
  - intros Hf Hm Hk. split.
    + intros Hok.
      destruct ((validate_slot_alignment start).1) eqn:Ha.
      * rewrite (validate_booking_slot_verdict start d rules (λ _, Ha)) in Hok.
        rewrite Hm, Hk in Hok. cbn [default int_of fmt] in Hok.
        destruct (Z.ltb_spec d 60); [discriminate Hok|].
        change (60 =? 0) with false in Hok. cbn iota in Hok.
        destruct (Z.eqb_spec (d mod 60) 0) as [Hmod|Hmod]; [|discriminate Hok].
        apply Z.mod_divide in Hmod; done.
      * rewrite booking_slot_misaligned in Hok; [discriminate Hok|by rewrite Hf|exact Ha].
    + intros (Ha & Hge & Hdiv).
      rewrite (validate_booking_slot_verdict start d rules (λ _, Ha)).
      rewrite Hm, Hk. cbn [default int_of fmt].
      rewrite (proj2 (Z.ltb_ge _ _) Hge). change (60 =? 0) with false. cbn iota.
      apply Z.mod_divide in Hdiv; [|done]. by rewrite (proj2 (Z.eqb_eq _ _) Hdiv).
  - repeat split; intros H; unfold validate_booking_slot;
      rewrite ?lookup_insert_eq, ?lookup_insert_ne by done; rewrite ?H; reflexivity.
Qed.

(** The empty rules, and rules that name a minimum of 90 only. *)
Lemma booking_rule_defaults_witness :
  (∅ : gmap string pyval) !! "fixed_slots" = None
  ∧ (∅ : gmap string pyval) !! "minimum_duration" = None
  ∧ (∅ : gmap string pyval) !! "duration_multiples" = None
  ∧ (validate_slot_alignment "14:30").1 = false
  ∧ validate_booking_slot "14:30" 60 ∅
      = Ok (false, (validate_slot_alignment "14:30").2)
  ∧ (validate_booking_slot "14:00" 30 ∅
       = Ok (false, "Duration must be at least 60 minutes") ↔ 30 < 60)
  ∧ Scenario.minimum_only !! "duration_multiples" = None
  ∧ 90 ≤ 150
  ∧ ¬ (60 | 150)
  ∧ validate_booking_slot "14:00" 150 Scenario.minimum_only
      = Ok (false, "Duration must be a multiple of 60 minutes. Got 150")
  ∧ (validate_booking_slot "14:00" 120 ∅ = Ok (true, "")
       ↔ (validate_slot_alignment "14:00").1 = true ∧ 60 ≤ 120 ∧ (60 | 120)).
Proof.
  assert (¬ (60 | 150)) as Hdiv by (intros [k Hk]; lia).
  assert (90 ≤ 150) as Hle by lia.
  do 4 (split; [reflexivity|]).
  split; [exact (proj1 (booking_rule_defaults "14:30" 60 ∅) eq_refl eq_refl)|].
  split; [exact (proj1 (proj1 (proj2 (booking_rule_defaults "14:00" 30 ∅))
                          eq_refl (λ _, eq_refl)))|].
  split; [reflexivity|]. split; [exact Hle|]. split; [exact Hdiv|].
  split; [exact (proj2 (proj1 (proj2 (proj2
                   (booking_rule_defaults "14:00" 150 Scenario.minimum_only)))
                   eq_refl (λ _, eq_refl) Hle) Hdiv)|].
  exact (proj1 (proj2 (proj2 (proj2 (booking_rule_defaults "14:00" 120 ∅))))
           eq_refl eq_refl eq_refl).
Defined.
End Duration.

Section Resolver.
Import TimeUtils CalendarService Spec.

Context (self : CalendarService.t) (facility_id : string) (start_dt end_dt : datetime).

Local Abbreviation loop := (available_courts_loop self facility_id start_dt end_dt).
Local Abbreviation free_at tr := (λ c, reports_free self facility_id start_dt end_dt tr c = true).

Lemma history_at_succ tr court :
  1 ≤ court →
  history_at self start_dt end_dt tr court
    ++ [EventsList (calendar_id self) start_dt end_dt]
  = history_at self start_dt end_dt tr (court + 1).
Proof.
  intros H. unfold history_at.
  replace (Z.to_nat (court + 1 - 1)) with (S (Z.to_nat (court - 1))) by lia.
  by rewrite replicate_S_end, app_assoc.
Qed.

Lemma history_at_first tr : history_at self start_dt end_dt tr 1 = tr.
Proof. unfold history_at. simpl. apply app_nil_r. Qed.

(** Without a client no call is issued and every court is collected. *)
Lemma loop_uninitialized courts acc tr :
  service self = None → loop courts acc tr = (Ok (acc ++ courts), tr).
Proof.
  intros Hs. revert acc. induction courts as [|c rest IH]; intros acc; simpl.
  - by rewrite app_nil_r.
  - unfold io_bind, check_court_availability. rewrite Hs. simpl.
    rewrite IH. by rewrite <- app_assoc.
Qed.

Lemma reports_free_uninitialized tr court :
  service self = None → reports_free self facility_id start_dt end_dt tr court = true.
Proof.
  intros Hs. unfold reports_free, check_court_availability. by rewrite Hs.
Qed.

(** One step of the resolver with a client whose read does not raise. *)
Lemma check_court_at svc tr court :
  service self = Some svc → 1 ≤ court →
  read_raises (read_outcome svc self start_dt end_dt tr court) = false →
  check_court_availability self court start_dt end_dt facility_id
    (history_at self start_dt end_dt tr court)
  = (Ok (reports_free self facility_id start_dt end_dt tr court),
     history_at self start_dt end_dt tr (court + 1)).
Proof.
  intros Hs Hc Hr. unfold reports_free, check_court_availability. rewrite Hs.
  unfold io_bind, list_execute, read_outcome in *.
  rewrite history_at_succ by assumption.
  destruct (events_list svc _ _ _ _); simpl in *; done.
Qed.

Lemma loop_initialized svc tr (n : nat) : ∀ m acc,
  service self = Some svc → 1 ≤ m →
  (∀ c, m ≤ c < m + Z.of_nat n →
        read_raises (read_outcome svc self start_dt end_dt tr c) = false) →
  loop (seqZ m (Z.of_nat n)) acc (history_at self start_dt end_dt tr m)
  = (Ok (acc ++ filter (free_at tr) (seqZ m (Z.of_nat n))),
     history_at self start_dt end_dt tr (m + Z.of_nat n)).
Proof.
  induction n as [|n IH]; intros m acc Hs Hm Hr.
  - rewrite seqZ_nil by lia. simpl. rewrite app_nil_r. unfold io_ret.
    by replace (m + Z.of_nat 0) with m by lia.
  - rewrite seqZ_cons by lia.
    replace (Z.pred (Z.of_nat (S n))) with (Z.of_nat n) by lia.
    cbn [available_courts_loop]. unfold io_bind at 1.
    rewrite (check_court_at svc) by (try apply Hr; try assumption; lia).
    rewrite filter_cons.
    replace (Z.succ m) with (m + 1) by lia.
    rewrite IH by (try assumption; try lia; intros; apply Hr; lia).
    replace (m + 1 + Z.of_nat n) with (m + Z.of_nat (S n)) by lia.
    destruct (reports_free self facility_id start_dt end_dt tr m); simpl.
    + by rewrite <- app_assoc.
    + done.
Qed.

(** The resolver against the filter of the specification. *)
Lemma get_available_courts_filter total tr :
  (∀ svc c, service self = Some svc → 1 ≤ c ≤ total →
            read_raises (read_outcome svc self start_dt end_dt tr c) = false) →
  (get_available_courts self facility_id total start_dt end_dt tr).1
  = Ok (filter (free_at tr) (seqZ 1 total)).
Proof.
  intros Hr. unfold get_available_courts.
  destruct (service self) as [svc|] eqn:Hs.
  - destruct (decide (total ≤ 0)) as [Hle|Hgt].
    + rewrite !seqZ_nil by assumption. reflexivity.
    + assert (∀ c, 1 ≤ c < 1 + Z.of_nat (Z.to_nat total) →
                   read_raises (read_outcome svc self start_dt end_dt tr c) = false)
        as Hr' by (intros c Hc; apply (Hr svc c eq_refl); lia).
      pose proof (loop_initialized svc tr (Z.to_nat total) 1 [] Hs ltac:(lia) Hr') as L.
      rewrite history_at_first, Z2Nat.id in L by lia.
      by rewrite L.
  - rewrite loop_uninitialized by assumption. simpl. f_equal.
    induction (seqZ 1 total) as [|c l IH]; [done|].
    rewrite filter_cons_True by (by apply reports_free_uninitialized).
    by rewrite <- IH.
Qed.

(** The calls of the resolver are reads. *)
Lemma check_court_reads court tr :
  ∃ calls, (check_court_availability self court start_dt end_dt facility_id tr).2
             = tr ++ calls
           ∧ Forall (λ c, is_insert c = false) calls.
Proof.
  unfold check_court_availability. destruct (service self) as [svc|].
  - exists [EventsList (calendar_id self) start_dt end_dt].
    unfold io_bind, list_execute. split; [|by repeat constructor].
    by destruct (events_list svc _ _ _ _).
  - exists []. simpl. by rewrite app_nil_r.
Qed.

Lemma loop_reads courts : ∀ acc tr,
  ∃ calls, (loop courts acc tr).2 = tr ++ calls
           ∧ Forall (λ c, is_insert c = false) calls.
Proof.
  induction courts as [|c rest IH]; intros acc tr; simpl.
  - exists []. by rewrite app_nil_r.
  - unfold io_bind.
    destruct (check_court_reads c tr) as (calls1 & E1 & F1).
    destruct (check_court_availability self c start_dt end_dt facility_id tr)
      as [[free|e] tr1]; simpl in E1; subst tr1.
    + destruct (IH (if free then acc ++ [c] else acc) (tr ++ calls1)) as (calls2 & E2 & F2).
      exists (calls1 ++ calls2). rewrite E2, app_assoc. split; [done|].
      by apply Forall_app.
    + by exists calls1.
Qed.

Lemma get_available_courts_reads total tr :
  ∃ calls, (get_available_courts self facility_id total start_dt end_dt tr).2
             = tr ++ calls
           ∧ Forall (λ c, is_insert c = false) calls.
Proof. apply loop_reads. Qed.

End Resolver.

Section Sorted.
Lemma seqZ_ascending (n : nat) : ∀ m, StronglySorted Z.lt (seqZ m (Z.of_nat n)).
Proof.
  induction n as [|n IH]; intros m.
  - rewrite seqZ_nil by lia. constructor.
  - rewrite seqZ_cons by lia.
    replace (Z.pred (Z.of_nat (S n))) with (Z.of_nat n) by lia.
    constructor; [apply IH|].
    apply Forall_forall. intros x Hx. apply elem_of_seqZ in Hx. lia.
Qed.

Lemma filter_ascending (P : Z → Prop) `{∀ x, Decision (P x)} l :
  StronglySorted Z.lt l → StronglySorted Z.lt (filter P l).
Proof.
  induction 1 as [|x l Hs IH Hx]; [constructor|].
  rewrite filter_cons. destruct (decide (P x)); [|exact IH].
  constructor; [exact IH|].
  apply Forall_forall. intros y Hy. apply list_elem_of_filter in Hy as [_ Hy].
  rewrite Forall_forall in Hx. by apply Hx.
Qed.

Lemma filter_seqZ_ascending (P : Z → Prop) `{∀ x, Decision (P x)} m n :
  StronglySorted Z.lt (filter P (seqZ m n)).
Proof.
  apply filter_ascending. destruct (decide (n ≤ 0)).
  - rewrite seqZ_nil by assumption. constructor.
  - replace n with (Z.of_nat (Z.to_nat n)) by lia. apply seqZ_ascending.
Qed.
End Sorted.

Section FailOpen.
Import TimeUtils CalendarService Spec.

Lemma filter_all {A} (P : A → Prop) `{∀ x, Decision (P x)} (l : list A) :
  (∀ x, x ∈ l → P x) → filter P l = l.
Proof.
  induction l as [|x l IH]; intros Hl; [done|].
  rewrite filter_cons_True by (apply Hl; by left).
  rewrite IH; [done|]. intros y Hy. apply Hl. by right.
Qed.

Lemma reports_free_http_error self svc facility_id start_dt end_dt tr court :
  service self = Some svc →
  read_outcome svc self start_dt end_dt tr court = ListHttpError →
  reports_free self facility_id start_dt end_dt tr court = true.
Proof.
  intros Hs Ho. unfold reports_free, check_court_availability. rewrite Hs.
  unfold io_bind, list_execute. unfold read_outcome in Ho. by rewrite Ho.
Qed.

(** What the resolver returns when no read raises an exception other than
    [HttpError]: exactly the courts of 1..total_courts that the store reports
    free, in ascending order; a court whose read raises [HttpError] is among
    them; and when the store is uninitialized, or every read raises
    [HttpError], the result is the full list 1..total_courts. *)
Lemma resolver_returns_reported_free_courts
    self facility_id total start_dt end_dt tr :
  (∀ svc c, service self = Some svc → 1 ≤ c ≤ total →
            read_raises (read_outcome svc self start_dt end_dt tr c) = false) →
  ∃ free,
    (get_available_courts self facility_id total start_dt end_dt tr).1 = Ok free
    ∧ free = filter (λ c, reports_free self facility_id start_dt end_dt tr c = true)
               (seqZ 1 total)
    ∧ StronglySorted Z.lt free
    ∧ (∀ svc c, service self = Some svc → 1 ≤ c ≤ total →
                read_outcome svc self start_dt end_dt tr c = ListHttpError → c ∈ free)
    ∧ (service self = None
       ∨ (∀ svc c, service self = Some svc → 1 ≤ c ≤ total →
                   read_outcome svc self start_dt end_dt tr c = ListHttpError) →
       free = seqZ 1 total).
Proof.
  intros Hr. eexists. split; [by apply get_available_courts_filter|].
  split; [reflexivity|]. split; [apply filter_seqZ_ascending|]. split.
  - intros svc c Hs Hc Ho. apply list_elem_of_filter. split.
    + by apply (reports_free_http_error self svc).
    + apply elem_of_seqZ. lia.
  - intros Hopen. apply filter_all. intros c Hc. apply elem_of_seqZ in Hc.
    destruct Hopen as [Hnone|Hhttp].
    + by apply reports_free_uninitialized.
    + destruct (service self) as [svc|] eqn:Hs.
      * apply (reports_free_http_error self svc); [done|]. apply Hhttp; [done|lia].
      * by apply reports_free_uninitialized.
Qed.

(** A read that raises anything but [HttpError] ends the resolver: the
    exception leaves [check_court_availability] and the loop with it. *)
Lemma resolver_raises_at_first_court self svc facility_id total start_dt end_dt tr e :
  service self = Some svc → 1 ≤ total →
  events_list svc tr (calendar_id self) start_dt end_dt = ListRaises e →
  get_available_courts self facility_id total start_dt end_dt tr
  = (Raise e, tr ++ [EventsList (calendar_id self) start_dt end_dt]).
Proof.
  intros Hs Ht He. unfold get_available_courts.
  rewrite seqZ_cons by lia. cbn [available_courts_loop].
  unfold io_bind at 1. unfold check_court_availability. rewrite Hs.
  unfold io_bind, list_execute. by rewrite He.
Qed.

(** C4 on a store that cannot be reached: the client is initialized and every
    read raises a transport error, which is not an [HttpError]. The
    [except HttpError] branch of [check_court_availability], which answers
    [True] for a failed read, does not catch it: the resolver raises at the
    read for court 1 instead of returning the courts 1..4, and
    [check_availability] answers [success = false] with the error text. On
    the sibling paths the resolver does fail open: with every read failing
    with an [HttpError], and without a client, it returns the courts 1..4. *)
Theorem unreachable_store_is_not_failed_open :
  events_list Scenario.unreachable [] "primary" Scenario.slot_start Scenario.slot_end
    = ListRaises (OtherError "Unable to find the server")
  ∧ get_available_courts (CalendarService.mk "primary" (Some Scenario.unreachable))
      "arena_1" 4 Scenario.slot_start Scenario.slot_end []
    = (Raise (OtherError "Unable to find the server"),
       [EventsList "primary" Scenario.slot_start Scenario.slot_end])
  ∧ BookingService.check_availability (Scenario.env_of (Some Scenario.unreachable))
      (Scenario.check "14:00" 60 2) []
    = (CheckAvailabilityResponse.mk false false [] None None
         (Some "Error checking availability: Unable to find the server"),
       [EventsList "primary" Scenario.slot_start Scenario.slot_end])
  ∧ get_available_courts (CalendarService.mk "primary" (Some Scenario.refusing))
      "arena_1" 4 Scenario.slot_start Scenario.slot_end []
    = (Ok [1; 2; 3; 4],
       replicate 4 (EventsList "primary" Scenario.slot_start Scenario.slot_end))
  ∧ get_available_courts (CalendarService.mk "primary" None)
      "arena_1" 4 Scenario.slot_start Scenario.slot_end []
    = (Ok [1; 2; 3; 4], []).
Proof. vm_compute. repeat split; reflexivity. Qed.
End FailOpen.

Section CheckAvailability.
Import TimeUtils SlotUtils BookingService Spec.

(** C2. A response with [available = true] lists at least as many free
    courts as were requested, and the list is the one the resolver returned
    when it was queried for the request's window. *)
Theorem available_implies_enough_free_courts env request tr :
  Rs.available (check_availability env request tr).1 = true →
  Rq.number_of_courts request
    ≤ Z.of_nat (length (Rs.free_courts (check_availability env request tr).1))
  ∧ ∃ facility start_dt end_dt,
      FacilityService.get_facility_by_id (facility_service env) (Rq.facility_id request)
        = Some facility
      ∧ combine_datetime (Rq.date request) (Rq.start_time request) = Ok start_dt
      ∧ get_end_datetime start_dt (Rq.duration_minutes request) = Ok end_dt
      ∧ CalendarService.get_available_courts (calendar_service env)
          (Facility.facility_id facility) (Facility.number_of_courts facility)
          start_dt end_dt tr
        = (Ok (Rs.free_courts (check_availability env request tr).1),
           (check_availability env request tr).2).
Proof.
  unfold check_availability, check_availability_body.
  destruct (FacilityService.get_facility_by_id _ _) as [facility|] eqn:Hf; [|discriminate].
  unfold io_bind, io_lift, io_ret.
  destruct (validate_booking_slot _ _ _) as [[[] ?]|?]; try discriminate. simpl.
  destruct (calculate_end_time _ _ _) as [end_time|?]; try discriminate.
  destruct (is_within_operating_hours _ _ _ _) as [[] ?]; try discriminate. simpl.
  destruct (combine_datetime _ _) as [start_dt|?] eqn:Hstart; try discriminate.
  destruct (get_end_datetime _ _) as [end_dt|?] eqn:Hstop; try discriminate.
  destruct (CalendarService.get_available_courts _ _ _ _ _ _) as [[free|?] tr'] eqn:Hget;
    try discriminate.
  destruct (Z.of_nat (length free) <? Rq.number_of_courts request) eqn:Hlt;
    try discriminate.
  simpl. intros _. apply Z.ltb_ge in Hlt. split; [exact Hlt|].
  exists facility, start_dt, end_dt. auto.
Qed.

(** Two courts at 14:00 for an hour, courts 1, 3 and 4 free. *)
Lemma available_implies_enough_free_courts_witness :
  Rs.available (check_availability (Scenario.env_of (Some Scenario.healthy))
                  (Scenario.check "14:00" 60 2) []).1 = true
  ∧ Rq.number_of_courts (Scenario.check "14:00" 60 2)
      ≤ Z.of_nat (length (Rs.free_courts
           (check_availability (Scenario.env_of (Some Scenario.healthy))
              (Scenario.check "14:00" 60 2) []).1)).
Proof.
  split; [reflexivity|].
  exact (proj1 (available_implies_enough_free_courts
                  (Scenario.env_of (Some Scenario.healthy))
                  (Scenario.check "14:00" 60 2) [] eq_refl)).
Defined.

(** C9, as the code does it. The requested count is never validated: a request
    for zero or fewer courts that passes the facility lookup, the slot
    validation and the operating-hours check, and for which the three steps
    between that check and the comparison return ([combine_datetime], which
    parses and localizes the date, [get_end_datetime] and the resolver), is
    answered with [success = true] and [available = true] whatever the free
    courts are. *)
Theorem nonpositive_request_reported_available
    env request tr facility slot end_time start_dt end_dt free tr' :
  Rq.number_of_courts request ≤ 0 →
  FacilityService.get_facility_by_id (facility_service env) (Rq.facility_id request)
    = Some facility →
  validate_booking_slot (Rq.start_time request) (Rq.duration_minutes request)
    (Facility.booking_rules facility) = Ok slot →
  slot.1 = true →
  calculate_end_time (today env) (Rq.start_time request) (Rq.duration_minutes request)
    = Ok end_time →
  (is_within_operating_hours (Rq.start_time request) end_time
     (Facility.open_time facility) (Facility.close_time facility)).1 = true →
  combine_datetime (Rq.date request) (Rq.start_time request) = Ok start_dt →
  get_end_datetime start_dt (Rq.duration_minutes request) = Ok end_dt →
  CalendarService.get_available_courts (calendar_service env)
    (Facility.facility_id facility) (Facility.number_of_courts facility)
    start_dt end_dt tr = (Ok free, tr') →
  check_availability env request tr
  = (Rs.mk true true free None
       (Some (Rs.Slot free (Facility.number_of_courts facility) (Rq.date request)
                (Rq.start_time request) (Rq.duration_minutes request)))
       None, tr').
Proof.
  intros Hn Hf Hslot Hok Hend Hhours Hstart Hstop Hget.
  unfold check_availability, check_availability_body.
  rewrite Hf. unfold io_bind, io_lift, io_ret.
  rewrite Hslot, Hok. simpl. rewrite Hend, Hhours. simpl.
  rewrite Hstart, Hstop, Hget.
  assert ((Z.of_nat (length free) <? Rq.number_of_courts request) = false) as ->
    by (apply Z.ltb_ge; lia).
  reflexivity.
Qed.

(** A request for -3 courts in the scenario. *)
Lemma nonpositive_request_reported_available_witness :
  check_availability (Scenario.env_of (Some Scenario.healthy))
    (Scenario.check "14:00" 60 (-3)) []
  = (Rs.mk true true [1; 3; 4] None
       (Some (Rs.Slot [1; 3; 4] 4 "2024-12-25" "14:00" 60)) None,
     replicate 4 (EventsList "primary" Scenario.slot_start Scenario.slot_end)).
Proof.
  apply (nonpositive_request_reported_available
           (Scenario.env_of (Some Scenario.healthy)) (Scenario.check "14:00" 60 (-3)) []
           Scenario.arena (true, "") "15:00" Scenario.slot_start Scenario.slot_end).
  - simpl. lia.
  - reflexivity.
  - reflexivity.
  - reflexivity.
  - reflexivity.
  - reflexivity.
  - reflexivity.
  - reflexivity.
  - vm_compute. reflexivity.
Defined.

(** C9 as stated fails. A request for zero courts that passes the facility
    lookup, the slot validation and the operating-hours check is still
    answered with [success = false] when its date does not parse: the date is
    read only after those checks. The same request dated 0001-01-01 has a
    date that parses, and is answered with [success = false] as well: the
    localization of that day raises. *)
Lemma nonpositive_request_with_bad_date_fails :
  Rq.number_of_courts Scenario.undated ≤ 0
  ∧ FacilityService.get_facility_by_id Scenario.directory (Rq.facility_id Scenario.undated)
      = Some Scenario.arena
  ∧ validate_booking_slot (Rq.start_time Scenario.undated) (Rq.duration_minutes Scenario.undated)
      (Facility.booking_rules Scenario.arena) = Ok (true, "")
  ∧ calculate_end_time 739245 (Rq.start_time Scenario.undated) (Rq.duration_minutes Scenario.undated)
      = Ok "15:00"
  ∧ is_within_operating_hours (Rq.start_time Scenario.undated) "15:00"
      (Facility.open_time Scenario.arena) (Facility.close_time Scenario.arena) = (true, "")
  ∧ (check_availability (Scenario.env_of (Some Scenario.healthy)) Scenario.undated []).1
    = Rs.mk false false [] None None
        (Some "Error checking availability: Invalid date format: tomorrow. Expected YYYY-MM-DD format.")
  ∧ Rq.number_of_courts Scenario.first_day ≤ 0
  ∧ Rq.facility_id Scenario.first_day = Rq.facility_id Scenario.undated
  ∧ Rq.start_time Scenario.first_day = Rq.start_time Scenario.undated
  ∧ Rq.duration_minutes Scenario.first_day = Rq.duration_minutes Scenario.undated
  ∧ parse_date (Rq.date Scenario.first_day) = Ok (mk_datetime 1 0)
  ∧ (check_availability (Scenario.env_of (Some Scenario.healthy)) Scenario.first_day []).1
    = Rs.mk false false [] None None
        (Some "Error checking availability: date value out of range").
Proof.
  split; [simpl; lia|]. do 5 (split; [vm_compute; reflexivity|]).
  split; [simpl; lia|]. vm_compute. repeat split; reflexivity.
Qed.
End CheckAvailability.

Section CreateBooking.
Import TimeUtils SlotUtils BookingService Spec.

Lemma inserts_since_refl tr : inserts_since tr tr = [].
Proof. unfold inserts_since. by rewrite drop_all. Qed.

Lemma inserts_since_reads tr calls :
  Forall (λ c, is_insert c = false) calls → inserts_since tr (tr ++ calls) = [].
Proof.
  intros H. unfold inserts_since. rewrite drop_app_length.
  induction H as [|c calls Hc _ IH]; [done|].
  rewrite filter_cons_False by (rewrite Hc; discriminate). exact IH.
Qed.

(** The availability loop stops at the first requested court that the
    resolver did not return. *)
Lemma first_unavailable_split before court after (free : list Z) :
  (∀ c, c ∈ before → c ∈ free) → court ∉ free →
  first_unavailable (before ++ court :: after) free = Some court.
Proof.
  intros Hb Hc. induction before as [|b before IH]; simpl.
  - by rewrite bool_decide_eq_false_2.
  - rewrite bool_decide_eq_true_2 by (apply Hb; by left).
    apply IH. intros c Hin. apply Hb. by right.
Qed.

Lemma first_unavailable_none courts (free : list Z) :
  first_unavailable courts free = None → ∀ c, c ∈ courts → c ∈ free.
Proof.
  induction courts as [|b courts IH]; simpl; intros H c Hc.
  - by apply elem_of_nil in Hc.
  - destruct (bool_decide (b ∈ free)) eqn:Hb; [|discriminate].
    apply bool_decide_eq_true_1 in Hb.
    apply elem_of_cons in Hc as [->|Hc]; [done|by apply IH].
Qed.

(** C3. When the resolver has returned and some requested court is not in its
    list, [create_booking] fails with "Court N is not available at the
    requested time" for the first such court N, and has issued no insert
    call. In general an insert call is issued only after the resolver has
    returned a list that holds every requested court. *)
Theorem unavailable_court_aborts_before_any_write :
  (∀ env request tr svc facility slot end_time start_dt end_dt free tr'
     before court after,
     CalendarService.service (calendar_service env) = Some svc →
     FacilityService.get_facility_by_id (facility_service env) (Bq.facility_id request)
       = Some facility →
     validate_booking_slot (Bq.start_time request) (Bq.duration_minutes request)
       (Facility.booking_rules facility) = Ok slot →
     slot.1 = true →
     (validate_court_numbers (Bq.court_numbers request)
        (Facility.number_of_courts facility)).1 = true →
     calculate_end_time (today env) (Bq.start_time request) (Bq.duration_minutes request)
       = Ok end_time →
     (is_within_operating_hours (Bq.start_time request) end_time
        (Facility.open_time facility) (Facility.close_time facility)).1 = true →
     combine_datetime (Bq.date request) (Bq.start_time request) = Ok start_dt →
     get_end_datetime start_dt (Bq.duration_minutes request) = Ok end_dt →
     CalendarService.get_available_courts (calendar_service env)
       (Facility.facility_id facility) (Facility.number_of_courts facility)
       start_dt end_dt tr = (Ok free, tr') →
     Bq.court_numbers request = before ++ court :: after →
     (∀ c, c ∈ before → c ∈ free) → court ∉ free →
     create_booking env request tr
       = (failure ("Court " +:+ str_of_Z court +:+ " is not available at the requested time"),
          tr')
     ∧ inserts_since tr tr' = [])
  ∧ (∀ env request tr,
       inserts_since tr (create_booking env request tr).2 ≠ [] →
       ∃ facility start_dt end_dt free tr',
         FacilityService.get_facility_by_id (facility_service env) (Bq.facility_id request)
           = Some facility
         ∧ CalendarService.get_available_courts (calendar_service env)
             (Facility.facility_id facility) (Facility.number_of_courts facility)
             start_dt end_dt tr = (Ok free, tr')
         ∧ ∀ c, c ∈ Bq.court_numbers request → c ∈ free).
Proof.
  split.
  - intros env request tr svc facility slot end_time start_dt end_dt free tr'
      before court after Hsvc Hf Hslot Hok Hcourts Hend Hhours Hstart Hstop Hget
      Hsplit Hbefore Hcourt.
    split.
    + unfold create_booking, create_booking_body.
      rewrite Hsvc, Hf. unfold io_bind, io_lift, io_ret.
      rewrite Hslot, Hok. simpl. rewrite Hcourts. simpl.
      rewrite Hend, Hhours. simpl. rewrite Hstart, Hstop, Hget.
      rewrite Hsplit, first_unavailable_split by assumption. reflexivity.
    + destruct (get_available_courts_reads (calendar_service env)
                  (Facility.facility_id facility) start_dt end_dt
                  (Facility.number_of_courts facility) tr) as (calls & E & Hreads).
      rewrite Hget in E. simpl in E. subst tr'. by apply inserts_since_reads.
  - intros env request tr. unfold create_booking, create_booking_body.
    destruct (CalendarService.service _) as [svc|];
      [|simpl; rewrite inserts_since_refl; done].
    destruct (FacilityService.get_facility_by_id _ _) as [facility|] eqn:Hf;
      [|simpl; rewrite inserts_since_refl; done].
    unfold io_bind, io_lift, io_ret.
    destruct (validate_booking_slot _ _ _) as [[[] ?]|?]; simpl;
      try (rewrite inserts_since_refl; done).
    destruct (validate_court_numbers _ _) as [[] ?]; simpl;
      try (rewrite inserts_since_refl; done).
    destruct (calculate_end_time _ _ _) as [end_time|?]; simpl;
      try (rewrite inserts_since_refl; done).
    destruct (is_within_operating_hours _ _ _ _) as [[] ?]; simpl;
      try (rewrite inserts_since_refl; done).
    destruct (combine_datetime _ _) as [start_dt|?]; simpl;
      try (rewrite inserts_since_refl; done).
    destruct (get_end_datetime _ _) as [end_dt|?]; simpl;
      try (rewrite inserts_since_refl; done).
    destruct (get_available_courts_reads (calendar_service env)
                (Facility.facility_id facility) start_dt end_dt
                (Facility.number_of_courts facility) tr) as (calls & E & Hreads).
    destruct (CalendarService.get_available_courts _ _ _ _ _ _) as [[free|?] tr'] eqn:Hget;
      simpl in E; subst tr'; simpl;
      try (rewrite inserts_since_reads by assumption; done).
    destruct (first_unavailable _ _) as [court|] eqn:Hfirst; simpl;
      try (rewrite inserts_since_reads by assumption; done).
    intros _. exists facility, start_dt, end_dt, free, (tr ++ calls).
    split; [reflexivity|]. split; [exact Hget|].
    by apply first_unavailable_none.
Qed.
End CreateBooking.

Section CreateBookingScenario.
Import TimeUtils SlotUtils BookingService Spec.

(** Courts 1 and 2 requested, courts 1, 3 and 4 free. *)
Lemma unavailable_court_aborts_before_any_write_witness :
  create_booking (Scenario.env_of (Some Scenario.healthy)) (Scenario.booking [1; 2]) []
    = (failure "Court 2 is not available at the requested time",
       replicate 4 (EventsList "primary" Scenario.slot_start Scenario.slot_end))
  ∧ inserts_since [] (replicate 4 (EventsList "primary" Scenario.slot_start Scenario.slot_end))
    = [].
Proof.
  apply (proj1 unavailable_court_aborts_before_any_write
           (Scenario.env_of (Some Scenario.healthy)) (Scenario.booking [1; 2]) []
           Scenario.healthy Scenario.arena (true, "") "15:00"
           Scenario.slot_start Scenario.slot_end [1; 3; 4]
           (replicate 4 (EventsList "primary" Scenario.slot_start Scenario.slot_end))
           [1] 2 []).
  - reflexivity.
  - reflexivity.
  - reflexivity.
  - reflexivity.
  - vm_compute. reflexivity.
  - reflexivity.
  - reflexivity.
  - reflexivity.
  - reflexivity.
  - vm_compute. reflexivity.
  - reflexivity.
  - intros c Hc. apply list_elem_of_singleton in Hc. subst c. by left.
  - apply (bool_decide_unpack (2 ∉ [1; 3; 4])). vm_compute. exact I.
Defined.

(** C1 on a booking of courts 1 and 3 where the insert for court 3 is answered
    with an HTTP error: both inserts are issued, one event id comes back, and
    the response is a success whose message confirms courts 1 and 3. *)
Theorem partial_write_reported_as_success :
  Bq.court_numbers (Scenario.booking [1; 3]) = [1; 3]
  ∧ Bs.success (create_booking (Scenario.env_of (Some Scenario.flaky_insert))
                  (Scenario.booking [1; 3]) []).1 = true
  ∧ Bs.booking_id (create_booking (Scenario.env_of (Some Scenario.flaky_insert))
                     (Scenario.booking [1; 3]) []).1
    = Some "evt:Court 1 Booking - Ann"
  ∧ Bs.booking_ids <$> Bs.data (create_booking (Scenario.env_of (Some Scenario.flaky_insert))
                                  (Scenario.booking [1; 3]) []).1
    = Some ["evt:Court 1 Booking - Ann"]
  ∧ Bs.message (create_booking (Scenario.env_of (Some Scenario.flaky_insert))
                  (Scenario.booking [1; 3]) []).1
    = Some "Booking confirmed for Ann! Courts 1, 3 on 2024-12-25 at 14:00 for 60 minutes."
  ∧ length (inserts_since [] (create_booking (Scenario.env_of (Some Scenario.flaky_insert))
                                (Scenario.booking [1; 3]) []).2) = 2%nat.
Proof. vm_compute. repeat split; reflexivity. Qed.
End CreateBookingScenario.

(** * Further properties of the code *)

Section CourtNumbers.
Import SlotUtils.

Lemma first_invalid_court_none courts n :
  first_invalid_court courts n = None ↔ ∀ c, c ∈ courts → 1 ≤ c ≤ n.
Proof.
  induction courts as [|x courts IH]; simpl.
  - split; [intros _ c Hc; by apply elem_of_nil in Hc|done].
  - destruct ((x <? 1) || (n <? x)) eqn:E.
    + split; [discriminate|]. intros H. exfalso.
      assert (1 ≤ x ≤ n) by (apply H; by left).
      apply orb_true_iff in E as [E|E]; apply Z.ltb_lt in E; lia.
    + apply orb_false_iff in E as [E1 E2]. apply Z.ltb_ge in E1, E2.
      rewrite IH. split.
      * intros H c Hc. apply elem_of_cons in Hc as [->|Hc]; [lia|by apply H].
      * intros H c Hc. apply H. by right.
Qed.

Lemma first_invalid_court_split before c after n :
  (∀ x, x ∈ before → 1 ≤ x ≤ n) → ¬ (1 ≤ c ≤ n) →
  first_invalid_court (before ++ c :: after) n = Some c.
Proof.
  intros Hb Hc. induction before as [|x before IH]; simpl.
  - destruct ((c <? 1) || (n <? c)) eqn:E; [done|].
    apply orb_false_iff in E as [E1 E2]. apply Z.ltb_ge in E1, E2. lia.
  - assert (1 ≤ x ≤ n) as Hx by (apply Hb; by left).
    assert ((x <? 1) || (n <? x) = false) as ->
      by (apply orb_false_iff; split; apply Z.ltb_ge; lia).
    apply IH. intros y Hy. apply Hb. by right.
Qed.

Lemma size_list_to_set_le (l : list Z) :
  (size (list_to_set (C := gset Z) l) ≤ length l)%nat.
Proof.
  induction l as [|x l IH]; [by rewrite list_to_set_nil, size_empty|].
  rewrite list_to_set_cons, size_union_alt, size_singleton. simpl.
  assert (size (list_to_set (C := gset Z) l ∖ {[x]}) ≤ size (list_to_set (C := gset Z) l))%nat
    by (apply subseteq_size; intros y Hy; by apply elem_of_difference in Hy as [Hy _]).
  lia.
Qed.

Lemma length_eq_size_NoDup (l : list Z) :
  length l = size (list_to_set (C := gset Z) l) ↔ NoDup l.
Proof.
  split; [|intros H; by rewrite size_list_to_set].
  induction l as [|x l IH]; [constructor|].
  rewrite list_to_set_cons, size_union_alt, size_singleton. simpl. intros H.
  pose proof (size_list_to_set_le l) as Hle.
  assert (size (list_to_set (C := gset Z) l ∖ {[x]}) ≤ size (list_to_set (C := gset Z) l))%nat
    as Hsub by (apply subseteq_size; intros y Hy; by apply elem_of_difference in Hy as [Hy _]).
  assert (size (list_to_set (C := gset Z) l ∖ {[x]}) = size (list_to_set (C := gset Z) l))
    as Heq by lia.
  constructor.
  - intros Hx.
    assert (list_to_set (C := gset Z) l ∖ {[x]} ⊂ list_to_set (C := gset Z) l) as Hstrict.
    { split; [intros y Hy; by apply elem_of_difference in Hy as [Hy _]|].
      intros Hs. assert (x ∈ list_to_set (C := gset Z) l ∖ {[x]}) as Hd
        by (apply Hs; by apply elem_of_list_to_set).
      apply elem_of_difference in Hd as [_ Hd]. apply Hd. by apply elem_of_singleton. }
    apply subset_size in Hstrict. lia.
  - apply IH. lia.
Qed.

Lemma validate_court_numbers_accepts court_numbers number_of_courts :
  (validate_court_numbers court_numbers number_of_courts).1 = true ↔
  court_numbers ≠ [] ∧ (∀ c, c ∈ court_numbers → 1 ≤ c ≤ number_of_courts)
  ∧ NoDup court_numbers.
Proof.
  unfold validate_court_numbers.
  destruct court_numbers as [|x l]; [simpl; split; [discriminate|intros [? _]; done]|].
  assert (x :: l ≠ []) as Hne by done.
  revert Hne. generalize (x :: l). intros court_numbers Hne.
  destruct (first_invalid_court court_numbers number_of_courts) as [c|] eqn:Hf.
  - simpl. split; [discriminate|]. intros (_ & Hr & _).
    pose proof (proj2 (first_invalid_court_none _ _) Hr). congruence.
  - pose proof (proj1 (first_invalid_court_none _ _) Hf) as Hr.
    destruct (length court_numbers =? size (list_to_set (C := gset Z) court_numbers))%nat eqn:E; simpl.
    + apply Nat.eqb_eq in E. apply (proj1 (length_eq_size_NoDup _)) in E. split; [|done].
      done.
    + apply Nat.eqb_neq in E. split; [discriminate|]. intros (_ & _ & Hn).
      apply (proj2 (length_eq_size_NoDup _)) in Hn. done.
Qed.

(** X1. [validate_court_numbers] accepts a request exactly when it names at
    least one court, every court lies in 1..number_of_courts, and no court
    is named twice. *)
Theorem valid_court_numbers_iff court_numbers number_of_courts :
  (validate_court_numbers court_numbers number_of_courts).1 = true ↔
  court_numbers ≠ [] ∧ (∀ c, c ∈ court_numbers → 1 ≤ c ≤ number_of_courts)
  ∧ NoDup court_numbers.
Proof. apply validate_court_numbers_accepts. Qed.

Lemma accepted_courts_fit court_numbers number_of_courts :
  (validate_court_numbers court_numbers number_of_courts).1 = true →
  (1 ≤ length court_numbers)%nat ∧ Z.of_nat (length court_numbers) ≤ number_of_courts.
Proof.
  intros H. apply validate_court_numbers_accepts in H as (Hne & Hr & Hd). split.
  - destruct court_numbers; [done|simpl; lia].
  - assert (court_numbers ⊆+ seqZ 1 number_of_courts) as Hsub.
    { apply NoDup_submseteq; [done|]. intros c Hc. apply elem_of_seqZ.
      specialize (Hr c Hc). lia. }
    apply submseteq_length in Hsub. rewrite length_seqZ in Hsub.
    destruct court_numbers; [done|]. simpl in *. lia.
Qed.

(** X2. An accepted list of court numbers has at least one entry and never
    more entries than the facility has courts. *)
Theorem valid_court_numbers_fit_facility court_numbers number_of_courts :
  (validate_court_numbers court_numbers number_of_courts).1 = true →
  (1 ≤ length court_numbers)%nat ∧ Z.of_nat (length court_numbers) ≤ number_of_courts.
Proof. apply accepted_courts_fit. Qed.

Lemma valid_court_numbers_fit_facility_witness :
  (validate_court_numbers [4; 1; 3] 4).1 = true
  ∧ (1 ≤ length [4; 1; 3])%nat ∧ Z.of_nat (length [4; 1; 3]) ≤ 4.
Proof.
  exact (conj eq_refl (valid_court_numbers_fit_facility [4; 1; 3] 4 eq_refl)).
Defined.

(** X3. The first court number out of range is the one reported, whatever
    follows it and even when an earlier court is repeated: the range check
    runs before the duplicate check. *)
Theorem first_out_of_range_court_reported before court after number_of_courts :
  (∀ c, c ∈ before → 1 ≤ c ≤ number_of_courts) →
  ¬ (1 ≤ court ≤ number_of_courts) →
  validate_court_numbers (before ++ court :: after) number_of_courts
  = (false, "Invalid court number " +:+ str_of_Z court
              +:+ ". Facility has courts 1-" +:+ str_of_Z number_of_courts).
Proof.
  intros Hb Hc. unfold validate_court_numbers.
  rewrite first_invalid_court_split by assumption.
  by destruct before.
Qed.

Lemma first_out_of_range_court_reported_witness :
  (∀ c, c ∈ [2; 2] → 1 ≤ c ≤ 4) ∧ ¬ (1 ≤ 7 ≤ 4)
  ∧ validate_court_numbers [2; 2; 7; 0] 4
    = (false, "Invalid court number 7. Facility has courts 1-4").
Proof.
  assert (∀ c, c ∈ [2; 2] → 1 ≤ c ≤ 4) as Hb.
  { intros c Hc. apply elem_of_cons in Hc as [->|Hc]; [lia|].
    apply list_elem_of_singleton in Hc. lia. }
  assert (¬ (1 ≤ 7 ≤ 4)) as Hc by lia.
  exact (conj Hb (conj Hc (first_out_of_range_court_reported [2; 2] 7 [0] 4 Hb Hc))).
Defined.
End CourtNumbers.

Section StrptimeFacts.
Import Strptime.

Lemma match_seq_inv cs : ∀ s m r,
  match_seq cs s = Some (m, r) →
  s = m ++ r ∧ Forall2 (λ (p : cclass) c, p c = true) cs m.
Proof.
  induction cs as [|p cs IH]; intros s m r; simpl.
  - destruct s; intros [= <- <-]; split; constructor.
  - destruct s as [|c s]; [discriminate|].
    destruct (p c) eqn:Hp; [|discriminate].
    destruct (match_seq cs s) as [[m' r']|] eqn:Hm; [|discriminate].
    intros [= <- <-]. destruct (IH _ _ _ Hm) as [-> HF].
    split; [reflexivity|by constructor].
Qed.

Lemma match_group_inv {R} alts (k : list ascii → list ascii → option R) s x :
  match_group alts k s = Some x →
  ∃ a m r, a ∈ alts ∧ match_seq a s = Some (m, r) ∧ k m r = Some x.
Proof.
  induction alts as [|a alts IH]; simpl; [discriminate|].
  destruct (match_seq a s) as [[m r]|] eqn:Hm; simpl.
  - destruct (k m r) as [y|] eqn:Hk.
    + intros [= <-]. exists a, m, r. split; [by left|done].
    + intros H. destruct (IH H) as (a' & m' & r' & Ha & H1 & H2).
      exists a', m', r'. split; [by right|done].
  - intros H. destruct (IH H) as (a' & m' & r' & Ha & H1 & H2).
    exists a', m', r'. split; [by right|done].
Qed.

Lemma expect_inv {R} a (k : list ascii → option R) s x :
  expect a k s = Some x → ∃ s', s = a :: s' ∧ k s' = Some x.
Proof.
  destruct s as [|c s]; simpl; [discriminate|].
  destruct (Ascii.eqb c a) eqn:E; [|discriminate].
  apply Ascii.eqb_eq in E. subst c. eauto.
Qed.

Lemma range_bounds lo hi c :
  range lo hi c = true →
  (nat_of_ascii lo ≤ nat_of_ascii c ≤ nat_of_ascii hi)%nat.
Proof.
  unfold range. intros H. apply andb_prop in H as [H1 H2].
  apply Nat.leb_le in H1, H2. lia.
Qed.

Lemma digit_bounds c : is_digit c = true → (48 ≤ nat_of_ascii c ≤ 57)%nat.
Proof.
  unfold is_digit. intros H. apply andb_prop in H as [H1 H2].
  apply Nat.leb_le in H1, H2. lia.
Qed.

Lemma digit_of_bounds c : (48 ≤ nat_of_ascii c ≤ 57)%nat → is_digit c = true.
Proof.
  intros H. unfold is_digit. apply andb_true_intro.
  split; apply Nat.leb_le; lia.
Qed.

Lemma digit_not_space c : is_digit c = true → is_space c = false.
Proof.
  intros H%digit_bounds. unfold is_space.
  apply orb_false_iff; split.
  - apply andb_false_iff. right. apply Nat.leb_gt. lia.
  - apply Nat.eqb_neq. lia.
Qed.

(** A text within the digit limit is read digit by digit. *)
Lemma int_literal_short l :
  (length l <=? int_max_str_digits)%nat = true →
  int_literal l = int_digits 0 false l.
Proof.
  intros H%Nat.leb_le. unfold int_literal.
  pose proof (List.filter_length_le is_digit l) as Hf.
  destruct (Nat.ltb_spec int_max_str_digits (length (List.filter is_digit l)));
    [lia|reflexivity].
Qed.

Lemma digit_not_sign c (s : ascii) :
  is_digit c = true → (nat_of_ascii s < 48)%nat → Ascii.eqb c s = false.
Proof.
  intros H%digit_bounds Hs. apply Ascii.eqb_neq. intros ->. lia.
Qed.

Lemma group_int_one c : is_digit c = true → group_int [c] = digit_value c.
Proof.
  intros H. unfold group_int, int_of_str. simpl.
  unfold strip. simpl. rewrite (digit_not_space c H). simpl.
  rewrite (digit_not_space c H). simpl.
  rewrite (digit_not_sign c "-" H), (digit_not_sign c "+" H) by (vm_compute; lia).
  rewrite int_literal_short by reflexivity.
  simpl. rewrite H. reflexivity.
Qed.

Lemma group_int_two c1 c2 :
  is_digit c1 = true → is_digit c2 = true →
  group_int [c1; c2] = 10 * digit_value c1 + digit_value c2.
Proof.
  intros H1 H2. unfold group_int, int_of_str. simpl.
  unfold strip. simpl. rewrite (digit_not_space c1 H1). simpl.
  rewrite (digit_not_space c2 H2). simpl.
  rewrite (digit_not_sign c1 "-" H1), (digit_not_sign c1 "+" H1) by (vm_compute; lia).
  rewrite int_literal_short by reflexivity.
  simpl. rewrite H1, H2. simpl. f_equal. 
Qed.

Lemma lit_eq a c : lit a c = true → c = a.
Proof. unfold lit. intros H%Ascii.eqb_eq. done. Qed.

(** the number a class sequence of digits can stand for *)
Ltac class_bounds :=
  repeat match goal with
  | H : Forall2 _ (_ :: _) _ |- _ => apply Forall2_cons_inv_l in H as (? & ? & ? & H & ->)
  | H : Forall2 _ [] _ |- _ => apply Forall2_nil_inv_l in H as ->
  | H : lit _ _ = true |- _ => apply lit_eq in H; subst
  | H : range ?lo ?hi _ = true |- _ =>
      apply range_bounds in H;
      let l := eval vm_compute in (nat_of_ascii lo) in
      let h := eval vm_compute in (nat_of_ascii hi) in
      change (nat_of_ascii lo) with l in H; change (nat_of_ascii hi) with h in H
  | H : digit _ = true |- _ => apply digit_bounds in H
  end.

Lemma re_H_range a m :
  a ∈ re_H → Forall2 (λ (p : cclass) c, p c = true) a m → 0 ≤ group_int m < 24.
Proof.
  unfold re_H. intros Ha HF.
  repeat (apply elem_of_cons in Ha as [->|Ha]); [| | |by apply elem_of_nil in Ha];
    class_bounds.
  - rewrite group_int_two by (apply digit_of_bounds; first [lia|vm_compute; lia]).
    change (digit_value "2") with 2. unfold digit_value. lia.
  - rewrite group_int_two by (apply digit_of_bounds; lia).
    unfold digit_value. lia.
  - rewrite group_int_one by (apply digit_of_bounds; lia).
    unfold digit_value. lia.
Qed.

Lemma re_M_range a m :
  a ∈ re_M → Forall2 (λ (p : cclass) c, p c = true) a m → 0 ≤ group_int m < 60.
Proof.
  unfold re_M. intros Ha HF.
  repeat (apply elem_of_cons in Ha as [->|Ha]); [| |by apply elem_of_nil in Ha];
    class_bounds.
  - rewrite group_int_two by (apply digit_of_bounds; lia).
    unfold digit_value. lia.
  - rewrite group_int_one by (apply digit_of_bounds; lia).
    unfold digit_value. lia.
Qed.

Lemma match_HM_range s h m :
  match_HM s = Some (h, m) → 0 ≤ h < 24 ∧ 0 ≤ m < 60.
Proof.
  unfold match_HM.
  destruct (match_group re_H _ _) as [[[hm mm] rest]|] eqn:E; [|discriminate].
  destruct rest; [|discriminate]. intros [= <- <-].
  apply match_group_inv in E as (a & m1 & r1 & Ha & H1 & E).
  apply expect_inv in E as (s' & -> & E).
  apply match_group_inv in E as (b & m2 & r2 & Hb & H2 & Hk).
  simpl in Hk. injection Hk as -> ->.
  apply match_seq_inv in H1 as [_ F1]. apply match_seq_inv in H2 as [_ F2].
  split; [by apply (re_H_range a)|by apply (re_M_range b)].
Qed.
Lemma group_int_four c1 c2 c3 c4 :
  is_digit c1 = true → is_digit c2 = true → is_digit c3 = true → is_digit c4 = true →
  0 ≤ Strptime.group_int [c1; c2; c3; c4] ≤ 9999.
Proof.
  intros H1 H2 H3 H4. unfold Strptime.group_int, int_of_str. simpl.
  unfold strip. simpl. rewrite (digit_not_space c1 H1). simpl.
  rewrite (digit_not_space c4 H4). simpl.
  rewrite (digit_not_sign c1 "-" H1), (digit_not_sign c1 "+" H1) by (vm_compute; lia).
  rewrite int_literal_short by reflexivity.
  simpl. rewrite H1, H2, H3, H4. simpl.
  apply digit_bounds in H1, H2, H3, H4. unfold digit_value. lia.
Qed.

Lemma group_int_padded c :
  is_digit c = true → Strptime.group_int [" "%char; c] = digit_value c.
Proof.
  intros H. unfold Strptime.group_int, int_of_str. simpl.
  unfold strip. simpl. rewrite (digit_not_space c H). simpl.
  rewrite (digit_not_space c H). simpl.
  rewrite (digit_not_sign c "-" H), (digit_not_sign c "+" H) by (vm_compute; lia).
  rewrite int_literal_short by reflexivity.
  simpl. rewrite H. reflexivity.
Qed.

Lemma re_Y_range a m :
  a ∈ re_Y → Forall2 (λ (p : cclass) c, p c = true) a m → 0 ≤ group_int m ≤ 9999.
Proof.
  unfold re_Y. intros Ha HF. apply list_elem_of_singleton in Ha. subst a.
  class_bounds. apply group_int_four; apply digit_of_bounds; lia.
Qed.

Lemma re_m_range a m :
  a ∈ re_m → Forall2 (λ (p : cclass) c, p c = true) a m → 1 ≤ group_int m ≤ 12.
Proof.
  unfold re_m. intros Ha HF.
  repeat (apply elem_of_cons in Ha as [->|Ha]); [| | |by apply elem_of_nil in Ha];
    class_bounds.
  - rewrite group_int_two by (apply digit_of_bounds; first [lia|vm_compute; lia]).
    change (digit_value "1") with 1. unfold digit_value. lia.
  - rewrite group_int_two by (apply digit_of_bounds; first [lia|vm_compute; lia]).
    change (digit_value "0") with 0. unfold digit_value. lia.
  - rewrite group_int_one by (apply digit_of_bounds; lia).
    unfold digit_value. lia.
Qed.

Lemma re_d_range a m :
  a ∈ re_d → Forall2 (λ (p : cclass) c, p c = true) a m → 1 ≤ group_int m ≤ 31.
Proof.
  unfold re_d. intros Ha HF.
  repeat (apply elem_of_cons in Ha as [->|Ha]); [| | | | |by apply elem_of_nil in Ha];
    class_bounds.
  - rewrite group_int_two by (apply digit_of_bounds; first [lia|vm_compute; lia]).
    change (digit_value "3") with 3. unfold digit_value. lia.
  - rewrite group_int_two by (apply digit_of_bounds; lia).
    unfold digit_value. lia.
  - rewrite group_int_two by (apply digit_of_bounds; first [lia|vm_compute; lia]).
    change (digit_value "0") with 0. unfold digit_value. lia.
  - rewrite group_int_one by (apply digit_of_bounds; lia).
    unfold digit_value. lia.
  - rewrite group_int_padded by (apply digit_of_bounds; lia).
    unfold digit_value. lia.
Qed.

Lemma match_Ymd_range s y m d :
  match_Ymd s = Some (y, m, d) → 0 ≤ y ≤ 9999 ∧ 1 ≤ m ≤ 12 ∧ 1 ≤ d ≤ 31.
Proof.
  unfold match_Ymd.
  destruct (match_group re_Y _ _) as [[[[ym mm] dm] rest]|] eqn:E; [|discriminate].
  destruct rest; [|discriminate]. intros [= <- <- <-].
  apply match_group_inv in E as (a & m1 & r1 & Ha & H1 & E).
  apply expect_inv in E as (s1 & -> & E).
  apply match_group_inv in E as (b & m2 & r2 & Hb & H2 & E).
  apply expect_inv in E as (s2 & -> & E).
  apply match_group_inv in E as (c & m3 & r3 & Hc & H3 & Hk).
  simpl in Hk. injection Hk as -> -> -> ->.
  apply match_seq_inv in H1 as [_ F1]. apply match_seq_inv in H2 as [_ F2].
  apply match_seq_inv in H3 as [_ F3].
  split; [by apply (re_Y_range a)|]. split; [by apply (re_m_range b)|by apply (re_d_range c)].
Qed.
End StrptimeFacts.

Section TimeExtras.
Import TimeUtils Spec.

Lemma parse_time_range time_str t :
  parse_time time_str = Ok t → 0 ≤ hour t < 24 ∧ 0 ≤ minute t < 60.
Proof.
  unfold parse_time.
  destruct (Strptime.match_HM time_str) as [[h m]|] eqn:E; [|discriminate].
  intros [= <-]. simpl. by apply (match_HM_range time_str).
Qed.

(** X4. A string that [parse_time] accepts stands for a time of the day: hour
    0..23 and minute 0..59. *)
Theorem parse_time_yields_clock_time time_str t :
  parse_time time_str = Ok t → 0 ≤ hour t < 24 ∧ 0 ≤ minute t < 60.
Proof. apply parse_time_range. Qed.

Lemma parse_time_yields_clock_time_witness :
  parse_time "7:05" = Ok (mk_time 7 5)
  ∧ 0 ≤ hour (mk_time 7 5) < 24 ∧ 0 ≤ minute (mk_time 7 5) < 60.
Proof.
  exact (conj eq_refl (parse_time_yields_clock_time "7:05" (mk_time 7 5) eq_refl)).
Defined.

Lemma parse_time_error time_str e :
  parse_time time_str = Raise e →
  e = ValueError ("Invalid time format: " +:+ time_str +:+ ". Expected HH:MM format.").
Proof.
  unfold parse_time. destruct (Strptime.match_HM time_str) as [[h m]|]; [discriminate|].
  by intros [= <-].
Qed.
End TimeExtras.

Section TimeExtras2.
Import TimeUtils Spec Vocabulary.

(** X5. Whatever end time [calculate_end_time] returns, [parse_time] reads it
    back, as the start plus the duration modulo one day. *)
Theorem computed_end_time_parses_back today start_time duration_minutes t end_time :
  parse_time start_time = Ok t →
  calculate_end_time today start_time duration_minutes = Ok end_time →
  parse_time end_time
  = Ok (mk_time ((minutes t + duration_minutes) mod 1440 / 60)
                ((minutes t + duration_minutes) mod 1440 mod 60)).
Proof.
  intros Ht. unfold calculate_end_time. rewrite Ht. simpl.
  destruct (timedelta duration_minutes) as [delta|] eqn:Hd; [|discriminate]. simpl.
  unfold timedelta in Hd.
  destruct (_ <=? _) in Hd; [|destruct (_ && _) in Hd; discriminate].
  injection Hd as <-.
  unfold datetime_add. simpl. destruct (_ && _); [|discriminate].
  simpl. intros [= <-].
  change (strftime_HM ?dt) with
    (hhmm (minute_of_day dt / 60) (minute_of_day dt mod 60)). simpl.
  fold (minutes t).
  pose proof (Z.mod_pos_bound (minutes t + duration_minutes) 1440 ltac:(lia)).
  apply parse_time_hhmm.
  - split; [apply Z.div_pos; lia|apply Z.div_lt_upper_bound; lia].
  - apply Z.mod_pos_bound. lia.
Qed.

Lemma computed_end_time_parses_back_witness :
  parse_time "23:30" = Ok (mk_time 23 30)
  ∧ calculate_end_time 739245 "23:30" 90 = Ok "01:00"
  ∧ parse_time "01:00"
    = Ok (mk_time ((minutes (mk_time 23 30) + 90) mod 1440 / 60)
                  ((minutes (mk_time 23 30) + 90) mod 1440 mod 60)).
Proof.
  exact (conj eq_refl (conj eq_refl
           (computed_end_time_parses_back 739245 "23:30" 90 (mk_time 23 30) "01:00"
              eq_refl eq_refl))).
Defined.

Lemma get_end_datetime_ok start_dt d end_dt :
  get_end_datetime start_dt d = Ok end_dt ↔
  Z.abs (d / 1440) ≤ 999999999
  ∧ 1 ≤ ordinal start_dt + (minute_of_day start_dt + d) / 1440 ≤ MAXORDINAL
  ∧ end_dt = mk_datetime (ordinal start_dt + (minute_of_day start_dt + d) / 1440)
                         ((minute_of_day start_dt + d) mod 1440).
Proof.
  unfold get_end_datetime, timedelta, datetime_add.
  destruct (Z.abs (d / 1440) <=? 999999999) eqn:E; simpl.
  - apply Z.leb_le in E.
    destruct (1 <=? ordinal start_dt + (minute_of_day start_dt + d) / 1440) eqn:A;
      destruct (ordinal start_dt + (minute_of_day start_dt + d) / 1440 <=? MAXORDINAL) eqn:B;
      simpl; try apply Z.leb_le in A; try apply Z.leb_le in B;
      try apply Z.leb_gt in A; try apply Z.leb_gt in B;
      (split; [intros [= <-]; done || lia | intros (_ & ? & ->); done || lia]).
  - apply Z.leb_gt in E. split; [destruct (_ && _); discriminate|]. lia.
Qed.

(** X6. From a valid instant, [get_end_datetime] returns valid instants, and
    adding d1 and then d2 is adding d1 + d2. *)
Theorem end_instant_valid_and_additive start_dt d1 d2 mid_dt end_dt :
  valid_datetime start_dt →
  get_end_datetime start_dt d1 = Ok mid_dt →
  get_end_datetime mid_dt d2 = Ok end_dt →
  valid_datetime mid_dt ∧ valid_datetime end_dt
  ∧ get_end_datetime start_dt (d1 + d2) = Ok end_dt.
Proof.
  intros [Hord Hmin] (E1 & R1 & ->)%get_end_datetime_ok (E2 & R2 & ->)%get_end_datetime_ok.
  simpl in *. unfold valid_datetime. simpl. unfold MAXORDINAL in *.
  remember (minute_of_day start_dt + d1) as a eqn:Ha.
  assert ((a mod 1440 + d2) / 1440 + a / 1440 = (a + d2) / 1440) as Hq.
  { rewrite (Z.div_mod a 1440) at 3 by lia.
    replace (1440 * (a / 1440) + a mod 1440 + d2)
      with (a mod 1440 + d2 + (a / 1440) * 1440) by lia.
    rewrite Z.div_add by lia. lia. }
  assert ((a mod 1440 + d2) mod 1440 = (a + d2) mod 1440) as Hr
    by (rewrite Zplus_mod_idemp_l; reflexivity).
  pose proof (Z.mod_pos_bound a 1440 ltac:(lia)).
  pose proof (Z.mod_pos_bound (a mod 1440 + d2) 1440 ltac:(lia)).
  split; [split; [exact R1|assumption]|]. split; [split; [exact R2|assumption]|].
  apply get_end_datetime_ok. unfold MAXORDINAL.
  replace (minute_of_day start_dt + (d1 + d2)) with (a + d2) by lia.
  split; [|split; [lia|f_equal; [lia|by rewrite <- Hr]]].
  pose proof (Z.div_le_mono (d1 + d2) (a + d2) 1440 ltac:(lia) ltac:(lia)).
  pose proof (Z.div_le_mono (a + d2 + (-1) * 1440) (d1 + d2) 1440 ltac:(lia)
                ltac:(lia)) as Hlow.
  rewrite Z.div_add in Hlow by lia. lia.
Qed.

Lemma end_instant_valid_and_additive_witness :
  valid_datetime (mk_datetime 739245 840)
  ∧ get_end_datetime (mk_datetime 739245 840) 700 = Ok (mk_datetime 739246 100)
  ∧ get_end_datetime (mk_datetime 739246 100) (-200) = Ok (mk_datetime 739245 1340)
  ∧ get_end_datetime (mk_datetime 739245 840) (700 + -200) = Ok (mk_datetime 739245 1340).
Proof.
  assert (valid_datetime (mk_datetime 739245 840)) as Hv
    by (unfold valid_datetime, MAXORDINAL; simpl; lia).
  exact (conj Hv (conj eq_refl (conj eq_refl
           (proj2 (proj2 (end_instant_valid_and_additive
                            (mk_datetime 739245 840) 700 (-200)
                            (mk_datetime 739246 100) (mk_datetime 739245 1340)
                            Hv eq_refl eq_refl)))))).
Defined.

(** X7. When one of the four times does not parse, the operating-hours check
    fails (it does not raise) and its reason names the first malformed one in
    the order start, end, open, close. *)
Theorem operating_hours_reports_first_malformed_time
    start_time end_time open_time close_time bad :
  first_malformed_time [start_time; end_time; open_time; close_time] = Some bad →
  is_within_operating_hours start_time end_time open_time close_time
  = (false, "Invalid time format: " +:+ bad +:+ ". Expected HH:MM format.").
Proof.
  unfold first_malformed_time, is_within_operating_hours. simpl.
  destruct (parse_time start_time) as [?|e] eqn:E1;
    [|intros [= <-]; by rewrite (parse_time_error _ _ E1)].
  destruct (parse_time end_time) as [?|e] eqn:E2;
    [|intros [= <-]; by rewrite (parse_time_error _ _ E2)].
  destruct (parse_time open_time) as [?|e] eqn:E3;
    [|intros [= <-]; by rewrite (parse_time_error _ _ E3)].
  destruct (parse_time close_time) as [?|e] eqn:E4;
    [|intros [= <-]; by rewrite (parse_time_error _ _ E4)].
  discriminate.
Qed.

Lemma operating_hours_reports_first_malformed_time_witness :
  first_malformed_time ["14:00"; "15:00"; "6am"; "10pm"] = Some "6am"
  ∧ is_within_operating_hours "14:00" "15:00" "6am" "10pm"
    = (false, "Invalid time format: 6am. Expected HH:MM format.").
Proof.
  exact (conj eq_refl
           (operating_hours_reports_first_malformed_time
              "14:00" "15:00" "6am" "10pm" "6am" eq_refl)).
Defined.
End TimeExtras2.

Section DateFacts.
Import TimeUtils Vocabulary.

Lemma days_before_month_year_end y m d :
  1 ≤ m ≤ 12 → 1 ≤ d ≤ days_in_month y m →
  1 ≤ days_before_month y m + d ≤ 365 + (if is_leap y then 1 else 0).
Proof.
  intros Hm Hd.
  assert (m = 1 ∨ m = 2 ∨ m = 3 ∨ m = 4 ∨ m = 5 ∨ m = 6 ∨ m = 7 ∨ m = 8 ∨ m = 9
          ∨ m = 10 ∨ m = 11 ∨ m = 12) as Hcases by lia.
  unfold days_before_month.
  repeat destruct Hcases as [->|Hcases]; try subst m;
    match goal with
    | |- context [seqZ 1 ?n] =>
        let l := eval vm_compute in (seqZ 1 n) in change (seqZ 1 n) with l
    end;
    unfold days_in_month in *; simpl in *; destruct (is_leap y); lia.
Qed.

Lemma days_before_year_bounds y :
  1 ≤ y ≤ 9999 →
  0 ≤ days_before_year y
  ∧ days_before_year y + 365 + (if is_leap y then 1 else 0) ≤ MAXORDINAL.
Proof.
  intros Hy. unfold days_before_year, MAXORDINAL, is_leap.
  destruct (decide (y ≤ 9996)).
  - destruct ((y mod 4 =? 0) && _); split; Z.div_mod_to_equations; lia.
  - assert (y = 9997 ∨ y = 9998 ∨ y = 9999) as Hlast by lia.
    destruct Hlast as [Hlast|[Hlast|Hlast]]; subst y; vm_compute; split; discriminate.
Qed.

Lemma ymd2ord_bounds y m d :
  1 ≤ y ≤ 9999 → 1 ≤ m ≤ 12 → 1 ≤ d ≤ days_in_month y m →
  1 ≤ ymd2ord y m d ≤ MAXORDINAL.
Proof.
  intros Hy Hm Hd. unfold ymd2ord.
  pose proof (days_before_month_year_end y m d Hm Hd).
  pose proof (days_before_year_bounds y Hy).
  destruct (is_leap y); lia.
Qed.

(** X8. What [combine_datetime] returns is a valid instant: a date of the years
    1..9999 and a minute of the day. *)
Theorem combine_datetime_yields_valid_instant date_str time_str dt :
  combine_datetime date_str time_str = Ok dt → valid_datetime dt.
Proof.
  unfold combine_datetime, parse_date.
  destruct (Strptime.match_Ymd date_str) as [[[y m] d]|] eqn:E; [|discriminate].
  apply match_Ymd_range in E as (Hy & Hm & Hd).
  destruct ((1 <=? y) && (d <=? days_in_month y m)) eqn:C; [|discriminate]. simpl.
  destruct (parse_time time_str) as [t|] eqn:T; [|discriminate]. simpl.
  unfold localize. destruct (_ || _); [discriminate|].
  intros [= <-]. apply andb_prop in C as [C1 C2]. apply Z.leb_le in C1, C2.
  apply parse_time_range in T as [Hh Hmin].
  split; simpl; [apply ymd2ord_bounds; lia|lia].
Qed.

Lemma combine_datetime_yields_valid_instant_witness :
  combine_datetime "2024-12-25" "14:00" = Ok (mk_datetime 739245 840)
  ∧ valid_datetime (mk_datetime 739245 840).
Proof.
  exact (conj eq_refl
           (combine_datetime_yields_valid_instant "2024-12-25" "14:00"
              (mk_datetime 739245 840) eq_refl)).
Defined.
End DateFacts.

Section Events.
Import TimeUtils CalendarService Spec Vocabulary.

Lemma scan_events_app court facility_id evs1 evs2 :
  scan_events court facility_id (evs1 ++ evs2)
  = scan_events court facility_id evs1 && scan_events court facility_id evs2.
Proof.
  induction evs1 as [|ev evs1 IH]; simpl; [reflexivity|].
  match goal with |- context [if ?c then false else _] => destruct c end;
    [reflexivity|exact IH].
Qed.

(** X9. A court is free under a list of events exactly when it is free under
    each part of it, so the order of the listed events does not matter. *)
Theorem scan_events_order_irrelevant court facility_id evs1 evs2 :
  scan_events court facility_id (evs1 ++ evs2)
  = scan_events court facility_id evs1 && scan_events court facility_id evs2
  ∧ (evs1 ≡ₚ evs2 →
     scan_events court facility_id evs1 = scan_events court facility_id evs2).
Proof.
  split; [apply scan_events_app|].
  induction 1 as [|ev l1 l2 _ IH|ev1 ev2 l|l1 l2 l3 _ IH1 _ IH2]; simpl.
  - reflexivity.
  - by rewrite IH.
  - repeat match goal with |- context [if ?c then false else _] => destruct c end;
      reflexivity.
  - by rewrite IH1.
Qed.

Lemma prefix_same a : String.prefix a a = true.
Proof.
  induction a as [|c a IH]; simpl; [reflexivity|].
  destruct (ascii_dec c c); [exact IH|congruence].
Qed.

Lemma prefix_extend a b rest :
  String.prefix a b = true → String.prefix a (b +:+ rest) = true.
Proof.
  revert b. induction a as [|c a IH]; intros b; simpl; [by destruct (b +:+ rest)|].
  destruct b as [|c' b]; simpl; [discriminate|].
  destruct (ascii_dec c c'); [apply IH|discriminate].
Qed.

Lemma prefix_under p a b :
  String.prefix a b = true → String.prefix (p +:+ a) (p +:+ b) = true.
Proof.
  intros H. induction p as [|c p IH]; simpl; [exact H|].
  destruct (ascii_dec c c); [exact IH|congruence].
Qed.

Lemma court_marker_found other court rest :
  String.prefix (str_of_Z other) (str_of_Z court) = true →
  contains ("Court " +:+ str_of_Z other) ("Court " +:+ str_of_Z court +:+ rest) = true.
Proof.
  intros Hp. by apply contains_prefix, (prefix_under "Court "), prefix_extend.
Qed.

Lemma scan_events_marked court facility_id summary_text description_text before after :
  contains ("Court " +:+ str_of_Z court) summary_text = true →
  contains facility_id description_text = true →
  scan_events court facility_id
    (before ++ mk_event (Some summary_text) (Some description_text) :: after) = false.
Proof.
  intros Hm Hf. rewrite scan_events_app.
  change (scan_events court facility_id
            (mk_event (Some summary_text) (Some description_text) :: after))
    with (if contains ("Court " +:+ str_of_Z court) summary_text
             && (contains facility_id description_text
                 || contains facility_id summary_text)
          then false else scan_events court facility_id after).
  rewrite Hm, Hf. apply andb_false_r.
Qed.

(** What [create_booking_event] sends, and how the reader sees it. *)
Lemma create_booking_event_call self svc facility_name facility_id court
    customer_name customer_phone start_dt end_dt date_str start_time duration tr :
  service self = Some svc →
  ∃ body,
    (create_booking_event self facility_name facility_id court customer_name
       customer_phone start_dt end_dt date_str start_time duration tr).2
    = tr ++ [EventsInsert (calendar_id self) body]
    ∧ body_summary body = "Court " +:+ str_of_Z court +:+ " Booking - " +:+ customer_name
    ∧ contains facility_id (body_description body) = true
    ∧ body_start body = start_dt ∧ body_end body = end_dt.
Proof.
  intros Hs. unfold create_booking_event. rewrite Hs.
  unfold io_bind, insert_execute. eexists. split.
  - by destruct (events_insert svc _ _ _).
  - split; [reflexivity|]. split; [|done]. cbn [body_description].
    do 9 apply contains_append. apply contains_here.
Qed.

(** X10. The event that [create_booking_event] inserts for a court is
    recognized by the reader: listed back among any other events, it marks
    that court of that facility as booked. *)
Theorem written_event_is_read_as_booked self svc facility_name facility_id court
    customer_name customer_phone start_dt end_dt date_str start_time duration tr :
  service self = Some svc →
  ∃ body,
    (create_booking_event self facility_name facility_id court customer_name
       customer_phone start_dt end_dt date_str start_time duration tr).2
    = tr ++ [EventsInsert (calendar_id self) body]
    ∧ ∀ before after,
        scan_events court facility_id (before ++ listed body :: after) = false.
Proof.
  intros Hs.
  destruct (create_booking_event_call self svc facility_name facility_id court
              customer_name customer_phone start_dt end_dt date_str start_time
              duration tr Hs) as (body & Htr & Hsum & Hdesc & _).
  exists body. split; [exact Htr|]. intros before after.
  apply scan_events_marked; [|exact Hdesc].
  rewrite Hsum. apply court_marker_found, prefix_same.
Qed.

(** X11. The marker is matched as a substring: the event inserted for court c
    also marks as booked every court whose number is a prefix of c in
    decimal (court 1 when court 12 is booked). *)
Theorem written_event_blocks_prefix_courts self svc facility_name facility_id court
    customer_name customer_phone start_dt end_dt date_str start_time duration tr other :
  service self = Some svc →
  String.prefix (str_of_Z other) (str_of_Z court) = true →
  ∃ body,
    (create_booking_event self facility_name facility_id court customer_name
       customer_phone start_dt end_dt date_str start_time duration tr).2
    = tr ++ [EventsInsert (calendar_id self) body]
    ∧ ∀ before after,
        scan_events other facility_id (before ++ listed body :: after) = false.
Proof.
  intros Hs Hp.
  destruct (create_booking_event_call self svc facility_name facility_id court
              customer_name customer_phone start_dt end_dt date_str start_time
              duration tr Hs) as (body & Htr & Hsum & Hdesc & _).
  exists body. split; [exact Htr|]. intros before after.
  apply scan_events_marked; [|exact Hdesc].
  rewrite Hsum. by apply court_marker_found.
Qed.
End Events.

Section ResolverShape.
Import TimeUtils CalendarService Spec Vocabulary.

Context (self : CalendarService.t) (facility_id : string) (start_dt end_dt : datetime).

Local Abbreviation read := (EventsList (calendar_id self) start_dt end_dt).

Lemma check_court_ok svc court tr free tr' :
  service self = Some svc →
  check_court_availability self court start_dt end_dt facility_id tr = (Ok free, tr') →
  tr' = tr ++ [read].
Proof.
  intros Hs. unfold check_court_availability. rewrite Hs.
  unfold io_bind, list_execute.
  destruct (events_list svc _ _ _ _); simpl; by intros [= _ <-].
Qed.

Lemma loop_ok_initialized svc courts : ∀ acc tr free tr',
  service self = Some svc →
  available_courts_loop self facility_id start_dt end_dt courts acc tr = (Ok free, tr') →
  (∃ kept, free = acc ++ kept ∧ kept `sublist_of` courts)
  ∧ tr' = tr ++ replicate (length courts) read.
Proof.
  induction courts as [|c courts IH]; intros acc tr free tr' Hs; simpl.
  - intros [= <- <-]. split; [exists []; by rewrite app_nil_r|by rewrite app_nil_r].
  - unfold io_bind.
    destruct (check_court_availability self c start_dt end_dt facility_id tr)
      as [[b|e] tr1] eqn:Hc; [|discriminate].
    apply (check_court_ok svc) in Hc; [|done]. subst tr1.
    intros H. apply IH in H as [(kept & -> & Hk) ->]; [|done]. split.
    + destruct b.
      * exists (c :: kept). rewrite <- app_assoc. split; [done|by apply sublist_skip].
      * exists kept. split; [done|by apply sublist_cons].
    + by rewrite <- app_assoc.
Qed.

(** X12. When the resolver returns, its list is a sublist of 1..total_courts;
    with a client it has issued exactly one list call per court for the
    window, without a client none and the list is all of 1..total_courts. *)
Theorem resolver_result_shape total tr free tr' :
  get_available_courts self facility_id total start_dt end_dt tr = (Ok free, tr') →
  free `sublist_of` seqZ 1 total
  ∧ (is_Some (service self) → tr' = tr ++ replicate (Z.to_nat total) read)
  ∧ (service self = None → tr' = tr ∧ free = seqZ 1 total).
Proof.
  unfold get_available_courts. destruct (service self) as [svc|] eqn:Hs.
  - intros H. apply (loop_ok_initialized svc) in H as [(kept & -> & Hk) ->]; [|done].
    rewrite length_seqZ. split; [done|]. split; [done|discriminate].
  - rewrite loop_uninitialized by done. intros [= <- <-].
    split; [done|]. split; [by intros [? ?]|done].
Qed.
End ResolverShape.

Section ReadOnly.
Import TimeUtils SlotUtils BookingService Spec Vocabulary.

(** X13. [check_availability] only appends list calls to the history: it never
    inserts an event. *)
Theorem check_availability_only_reads env request tr :
  ∃ calls,
    (check_availability env request tr).2 = tr ++ calls
    ∧ Forall (λ c, is_insert c = false) calls
    ∧ inserts_since tr (check_availability env request tr).2 = [].
Proof.
  assert (∃ calls, (check_availability env request tr).2 = tr ++ calls
                   ∧ Forall (λ c, is_insert c = false) calls) as (calls & E & F).
  { unfold check_availability, check_availability_body.
    destruct (FacilityService.get_facility_by_id _ _) as [facility|];
      [|exists []; by rewrite app_nil_r].
    unfold io_bind, io_lift, io_ret.
    destruct (validate_booking_slot _ _ _) as [[[] ?]|?]; simpl;
      try (exists []; by rewrite app_nil_r).
    destruct (calculate_end_time _ _ _) as [end_time|?]; simpl;
      try (exists []; by rewrite app_nil_r).
    destruct (is_within_operating_hours _ _ _ _) as [[] ?]; simpl;
      try (exists []; by rewrite app_nil_r).
    destruct (combine_datetime _ _) as [start_dt|?]; simpl;
      try (exists []; by rewrite app_nil_r).
    destruct (get_end_datetime _ _) as [end_dt|?]; simpl;
      try (exists []; by rewrite app_nil_r).
    destruct (get_available_courts_reads (calendar_service env)
                (Facility.facility_id facility) start_dt end_dt
                (Facility.number_of_courts facility) tr) as (calls & E & Hreads).
    destruct (CalendarService.get_available_courts _ _ _ _ _ _) as [[free|?] tr'];
      simpl in E; subst tr'; [|by exists calls].
    destruct (_ <? _); by exists calls. }
  exists calls. split; [exact E|]. split; [exact F|].
  rewrite E. by apply inserts_since_reads.
Qed.
End ReadOnly.

Section Idempotence.
Import TimeUtils SlotUtils CalendarService BookingService Spec Vocabulary.

Lemma check_court_blind self court start_dt end_dt facility_id tr1 tr2 :
  (∀ svc, service self = Some svc → history_blind svc) →
  (check_court_availability self court start_dt end_dt facility_id tr1).1
  = (check_court_availability self court start_dt end_dt facility_id tr2).1.
Proof.
  intros Hb. unfold check_court_availability.
  destruct (service self) as [svc|] eqn:Hs; [|reflexivity].
  unfold io_bind, list_execute.
  rewrite (Hb svc eq_refl tr1 tr2).
  by destruct (events_list svc tr2 _ _ _).
Qed.

Lemma loop_blind self facility_id start_dt end_dt courts : ∀ acc tr1 tr2,
  (∀ svc, service self = Some svc → history_blind svc) →
  (available_courts_loop self facility_id start_dt end_dt courts acc tr1).1
  = (available_courts_loop self facility_id start_dt end_dt courts acc tr2).1.
Proof.
  induction courts as [|c courts IH]; intros acc tr1 tr2 Hb; simpl; [reflexivity|].
  unfold io_bind.
  pose proof (check_court_blind self c start_dt end_dt facility_id tr1 tr2 Hb) as E.
  destruct (check_court_availability self c start_dt end_dt facility_id tr1) as [r1 t1].
  destruct (check_court_availability self c start_dt end_dt facility_id tr2) as [r2 t2].
  simpl in E. subst r2. destruct r1 as [b|e]; [|reflexivity].
  by apply IH.
Qed.

(** X14. When the calendar's answers do not depend on the calls issued before,
    [check_availability] returns the same response whatever was called
    before, so asking twice gives the same answer. *)
Theorem check_availability_repeatable env request tr1 tr2 :
  (∀ svc, service (calendar_service env) = Some svc → history_blind svc) →
  (check_availability env request tr1).1 = (check_availability env request tr2).1.
Proof.
  intros Hb. unfold check_availability, check_availability_body.
  destruct (FacilityService.get_facility_by_id _ _) as [facility|]; [|reflexivity].
  unfold io_bind, io_lift, io_ret.
  destruct (validate_booking_slot _ _ _) as [[[] ?]|?]; simpl; try reflexivity.
  destruct (calculate_end_time _ _ _) as [end_time|?]; simpl; try reflexivity.
  destruct (is_within_operating_hours _ _ _ _) as [[] ?]; simpl; try reflexivity.
  destruct (combine_datetime _ _) as [start_dt|?]; simpl; try reflexivity.
  destruct (get_end_datetime _ _) as [end_dt|?]; simpl; try reflexivity.
  pose proof (loop_blind (calendar_service env) (Facility.facility_id facility)
                start_dt end_dt (seqZ 1 (Facility.number_of_courts facility)) []
                tr1 tr2 Hb) as E.
  unfold get_available_courts.
  destruct (available_courts_loop _ _ _ _ _ _ tr1) as [r1 t1].
  destruct (available_courts_loop _ _ _ _ _ _ tr2) as [r2 t2].
  simpl in E. subst r2. destruct r1 as [free|e]; [|reflexivity].
  by destruct (_ <? _).
Qed.

Lemma check_availability_repeatable_witness :
  (∀ svc, service (calendar_service (Scenario.env_of (Some Scenario.healthy))) = Some svc →
          history_blind svc)
  ∧ (check_availability (Scenario.env_of (Some Scenario.healthy))
       (Scenario.check "14:00" 60 2)
       (check_availability (Scenario.env_of (Some Scenario.healthy))
          (Scenario.check "14:00" 60 2) []).2).1
    = (check_availability (Scenario.env_of (Some Scenario.healthy))
         (Scenario.check "14:00" 60 2) []).1.
Proof.
  assert (∀ svc, service (calendar_service (Scenario.env_of (Some Scenario.healthy))) = Some svc →
                 history_blind svc) as Hb
    by (intros svc [= <-] h1 h2 c s e; reflexivity).
  exact (conj Hb (check_availability_repeatable _ _ _ _ Hb)).
Defined.
End Idempotence.

Section ResponseShape.
Import TimeUtils SlotUtils CalendarService BookingService Spec Vocabulary.

Ltac response_shape :=
  simpl; repeat split; intros; try done; try discriminate; eauto;
  try match goal with H : is_Some None |- _ => by destruct H end.

(** X15. The shape of every response of [check_availability]: available only if
    successful; a success has no error and has data, with a reason exactly
    when it is not available; a failure is not available, lists no court,
    has no data, and carries either a reason or an error, never both. *)
Theorem check_availability_response_shape env request tr :
  let response := (check_availability env request tr).1 in
  (Rs.available response = true → Rs.success response = true)
  ∧ (Rs.success response = true →
       Rs.error response = None ∧ is_Some (Rs.data response)
       ∧ (Rs.available response = false → is_Some (Rs.reason_if_not_available response))
       ∧ (Rs.available response = true → Rs.reason_if_not_available response = None))
  ∧ (Rs.success response = false →
       Rs.available response = false ∧ Rs.free_courts response = []
       ∧ Rs.data response = None
       ∧ (is_Some (Rs.reason_if_not_available response) ↔ Rs.error response = None)).
Proof.
  unfold check_availability, check_availability_body.
  destruct (FacilityService.get_facility_by_id _ _) as [facility|]; [|response_shape].
  unfold io_bind, io_lift, io_ret.
  destruct (validate_booking_slot _ _ _) as [[[] ?]|?]; simpl;
    [|response_shape|response_shape].
  destruct (calculate_end_time _ _ _) as [end_time|?]; simpl; [|response_shape].
  destruct (is_within_operating_hours _ _ _ _) as [[] ?]; simpl; [|response_shape].
  destruct (combine_datetime _ _) as [start_dt|?]; simpl; [|response_shape].
  destruct (get_end_datetime _ _) as [end_dt|?]; simpl; [|response_shape].
  destruct (CalendarService.get_available_courts _ _ _ _ _ _) as [[free|?] tr']; simpl;
    [|response_shape].
  destruct (_ <? _); response_shape.
Qed.

(** X16. Without a calendar client no call is ever issued: a successful
    [check_availability] lists every court 1..number_of_courts as free, and
    [create_booking] always refuses with the missing-configuration error. *)
Theorem uninitialized_calendar_reads_open_writes_closed env :
  service (calendar_service env) = None →
  (∀ request tr,
     (check_availability env request tr).2 = tr
     ∧ (Rs.success (check_availability env request tr).1 = true →
        ∃ facility,
          FacilityService.get_facility_by_id (facility_service env) (Rq.facility_id request)
            = Some facility
          ∧ Rs.free_courts (check_availability env request tr).1
            = seqZ 1 (Facility.number_of_courts facility)))
  ∧ (∀ request tr,
       create_booking env request tr
       = (failure "Calendar service is not initialized. Please configure Google Calendar integration.",
          tr)).
Proof.
  intros Hs. split.
  - intros request tr. unfold check_availability, check_availability_body.
    destruct (FacilityService.get_facility_by_id _ _) as [facility|]; [|done].
    unfold io_bind, io_lift, io_ret.
    destruct (validate_booking_slot _ _ _) as [[[] ?]|?]; simpl; try done.
    destruct (calculate_end_time _ _ _) as [end_time|?]; simpl; try done.
    destruct (is_within_operating_hours _ _ _ _) as [[] ?]; simpl; try done.
    destruct (combine_datetime _ _) as [start_dt|?]; simpl; try done.
    destruct (get_end_datetime _ _) as [end_dt|?]; simpl; try done.
    unfold CalendarService.get_available_courts.
    rewrite loop_uninitialized by done. simpl.
    destruct (_ <? _); simpl; (split; [done|]); intros _; by exists facility.
  - intros request tr. unfold create_booking, create_booking_body. by rewrite Hs.
Qed.

Lemma uninitialized_calendar_reads_open_writes_closed_witness :
  service (calendar_service (Scenario.env_of None)) = None
  ∧ (check_availability (Scenario.env_of None) (Scenario.check "14:00" 60 2) []).2 = []
  ∧ create_booking (Scenario.env_of None) (Scenario.booking [1; 2]) []
    = (failure "Calendar service is not initialized. Please configure Google Calendar integration.",
       []).
Proof.
  exact (conj eq_refl
           (conj (proj1 (proj1 (uninitialized_calendar_reads_open_writes_closed
                                  (Scenario.env_of None) eq_refl)
                           (Scenario.check "14:00" 60 2) []))
                 (proj2 (uninitialized_calendar_reads_open_writes_closed
                           (Scenario.env_of None) eq_refl)
                    (Scenario.booking [1; 2]) []))).
Defined.
End ResponseShape.

Section WriteLoop.
Import TimeUtils SlotUtils CalendarService BookingService Spec Vocabulary.

Lemma create_booking_event_ok self svc facility_name facility_id court
    customer_name customer_phone start_dt end_dt date_str start_time duration tr r tr' :
  service self = Some svc →
  create_booking_event self facility_name facility_id court customer_name
    customer_phone start_dt end_dt date_str start_time duration tr = (r, tr') →
  ∃ body, tr' = tr ++ [EventsInsert (calendar_id self) body]
          ∧ r = match events_insert svc tr (calendar_id self) body with
                | Created id => Ok (Some id)
                | InsertHttpError => Ok None
                | InsertRaises e => Raise e
                end.
Proof.
  intros Hs. unfold create_booking_event. rewrite Hs.
  unfold io_bind, insert_execute. intros H. eexists.
  destruct (events_insert svc _ _ _) eqn:E; simpl in H; injection H as <- <-;
    (split; [reflexivity|]); by rewrite E.
Qed.

Lemma book_courts_ok env facility request start_dt end_dt svc courts :
  ∀ booking_ids tr ids tr',
  service (calendar_service env) = Some svc →
  book_courts env facility request start_dt end_dt courts booking_ids tr = (Ok ids, tr') →
  ∃ new calls,
    ids = booking_ids ++ new
    ∧ (length new ≤ length courts)%nat
    ∧ Forall (λ id, id ≠ "") new
    ∧ tr' = tr ++ calls
    ∧ length calls = length courts
    ∧ Forall (λ c, is_insert c = true) calls.
Proof.
  induction courts as [|c courts IH]; intros acc tr ids tr' Hs; simpl.
  - intros [= <- <-]. exists [], []. rewrite !app_nil_r. repeat split; constructor.
  - unfold io_bind.
    destruct (create_booking_event _ _ _ _ _ _ _ _ _ _ _ tr) as [r tr1] eqn:Hc.
    apply (create_booking_event_ok _ svc) in Hc as (body & -> & ->); [|done].
    destruct (events_insert svc tr _ body) as [id| |e]; [| |discriminate].
    + intros H. apply IH in H as (new & calls & -> & Hl & Hne & -> & Hc & Hi); [|done].
      destruct (String.eqb id "") eqn:Eid.
      * exists new, (EventsInsert (calendar_id (calendar_service env)) body :: calls).
        rewrite <- app_assoc. simpl. repeat split; try done; try lia.
        by constructor.
      * apply String.eqb_neq in Eid.
        exists (id :: new), (EventsInsert (calendar_id (calendar_service env)) body :: calls).
        rewrite <- !app_assoc. simpl. repeat split; try done; try lia;
          by constructor.
    + intros H. apply IH in H as (new & calls & -> & Hl & Hne & -> & Hc & Hi); [|done].
      exists new, (EventsInsert (calendar_id (calendar_service env)) body :: calls).
      rewrite <- app_assoc. simpl. repeat split; try done; try lia.
      by constructor.
Qed.

Lemma book_courts_all_created env facility request start_dt end_dt svc courts :
  ∀ booking_ids tr,
  service (calendar_service env) = Some svc → accepts_inserts svc →
  ∃ new tr',
    book_courts env facility request start_dt end_dt courts booking_ids tr
    = (Ok (booking_ids ++ new), tr')
    ∧ length new = length courts.
Proof.
  induction courts as [|c courts IH]; intros acc tr Hs Ha; simpl.
  - exists [], tr. by rewrite app_nil_r.
  - unfold io_bind.
    destruct (create_booking_event _ _ _ _ _ _ _ _ _ _ _ tr) as [r tr1] eqn:Hc.
    apply (create_booking_event_ok _ svc) in Hc as (body & -> & ->); [|done].
    destruct (Ha tr (calendar_id (calendar_service env)) body) as (id & -> & Hid).
    apply String.eqb_neq in Hid. rewrite Hid.
    destruct (IH (acc ++ [id]) (tr ++ [EventsInsert (calendar_id (calendar_service env)) body])
                Hs Ha) as (new & tr' & -> & Hl).
    exists (id :: new), tr'. rewrite <- app_assoc. simpl. split; [done|lia].
Qed.

Lemma inserts_since_app tr reads writes :
  Forall (λ c, is_insert c = false) reads →
  Forall (λ c, is_insert c = true) writes →
  inserts_since tr (tr ++ reads ++ writes) = writes.
Proof.
  intros Hr Hw. unfold inserts_since. rewrite drop_app_length, filter_app.
  assert (filter (λ c, is_insert c = true) reads = []) as ->.
  { induction Hr as [|c l Hc _ IH]; [done|].
    rewrite filter_cons_False by (rewrite Hc; discriminate). exact IH. }
  simpl. apply filter_all. by apply Forall_forall.
Qed.

(** X17. A successful [create_booking] found the facility, validated the court
    numbers, got every requested court in the resolver's list, issued one
    insert per requested court, and returns between one id and one id per
    court, none empty, joined by commas. *)
Theorem successful_booking_passed_every_check env request tr :
  Bs.success (create_booking env request tr).1 = true →
  ∃ facility start_dt end_dt free tr1 ids,
    FacilityService.get_facility_by_id (facility_service env) (Bq.facility_id request)
      = Some facility
    ∧ (validate_court_numbers (Bq.court_numbers request)
         (Facility.number_of_courts facility)).1 = true
    ∧ CalendarService.get_available_courts (calendar_service env)
        (Facility.facility_id facility) (Facility.number_of_courts facility)
        start_dt end_dt tr = (Ok free, tr1)
    ∧ (∀ c, c ∈ Bq.court_numbers request → c ∈ free)
    ∧ Bs.booking_id (create_booking env request tr).1 = Some (str_join "," ids)
    ∧ (1 ≤ length ids ≤ length (Bq.court_numbers request))%nat
    ∧ Forall (λ id, id ≠ "") ids
    ∧ length (inserts_since tr (create_booking env request tr).2)
      = length (Bq.court_numbers request).
Proof.
  unfold create_booking, create_booking_body.
  destruct (service (calendar_service env)) as [svc|] eqn:Hs; [|discriminate].
  destruct (FacilityService.get_facility_by_id _ _) as [facility|] eqn:Hf; [|discriminate].
  unfold io_bind, io_lift, io_ret.
  destruct (validate_booking_slot _ _ _) as [[[] ?]|?]; simpl; try discriminate.
  destruct (validate_court_numbers _ _) as [[] ?] eqn:Hv; simpl; try discriminate.
  destruct (calculate_end_time _ _ _) as [end_time|?]; simpl; try discriminate.
  destruct (is_within_operating_hours _ _ _ _) as [[] ?]; simpl; try discriminate.
  destruct (combine_datetime _ _) as [start_dt|?]; simpl; try discriminate.
  destruct (get_end_datetime _ _) as [end_dt|?]; simpl; try discriminate.
  destruct (get_available_courts_reads (calendar_service env)
              (Facility.facility_id facility) start_dt end_dt
              (Facility.number_of_courts facility) tr) as (reads & E & Hreads).
  destruct (CalendarService.get_available_courts _ _ _ _ _ _) as [[free|?] tr1] eqn:Hget;
    simpl in E; subst tr1; simpl; try discriminate.
  destruct (first_unavailable _ _) as [court|] eqn:Hfirst; simpl; try discriminate.
  destruct (book_courts _ _ _ _ _ _ _ _) as [[ids|?] tr2] eqn:Hbook; simpl;
    try discriminate.
  apply (book_courts_ok _ _ _ _ _ svc) in Hbook
    as (new & writes & Hids & Hl & Hne & -> & Hc & Hi); [|done].
  simpl in Hids. subst ids.
  destruct new as [|id new]; simpl; [discriminate|]. intros _.
  exists facility, start_dt, end_dt, free, (tr ++ reads), (id :: new).
  split; [done|]. split; [by rewrite Hv|]. split; [done|].
  split; [by apply first_unavailable_none|]. split; [done|].
  split; [simpl in *; lia|]. split; [done|].
  rewrite <- app_assoc, inserts_since_app by done. exact Hc.
Qed.

Lemma successful_booking_passed_every_check_witness :
  Bs.success (create_booking (Scenario.env_of (Some Scenario.healthy))
                (Scenario.booking [1; 3]) []).1 = true
  ∧ length (inserts_since [] (create_booking (Scenario.env_of (Some Scenario.healthy))
                                (Scenario.booking [1; 3]) []).2)
    = length (Bq.court_numbers (Scenario.booking [1; 3])).
Proof.
  split; [reflexivity|].
  destruct (successful_booking_passed_every_check
              (Scenario.env_of (Some Scenario.healthy)) (Scenario.booking [1; 3]) []
              eq_refl) as (? & ? & ? & ? & ? & ? & _ & _ & _ & _ & _ & _ & _ & H).
  exact H.
Defined.

(** X18. When every check passes, every requested court is free and the calendar
    accepts each insert with a non-empty id, the booking succeeds with
    exactly one id per requested court. *)
Theorem accepted_inserts_give_one_id_per_court
    env request tr svc facility slot end_time start_dt end_dt free tr1 :
  service (calendar_service env) = Some svc →
  accepts_inserts svc →
  FacilityService.get_facility_by_id (facility_service env) (Bq.facility_id request)
    = Some facility →
  validate_booking_slot (Bq.start_time request) (Bq.duration_minutes request)
    (Facility.booking_rules facility) = Ok slot →
  slot.1 = true →
  (validate_court_numbers (Bq.court_numbers request)
     (Facility.number_of_courts facility)).1 = true →
  calculate_end_time (today env) (Bq.start_time request) (Bq.duration_minutes request)
    = Ok end_time →
  (is_within_operating_hours (Bq.start_time request) end_time
     (Facility.open_time facility) (Facility.close_time facility)).1 = true →
  combine_datetime (Bq.date request) (Bq.start_time request) = Ok start_dt →
  get_end_datetime start_dt (Bq.duration_minutes request) = Ok end_dt →
  CalendarService.get_available_courts (calendar_service env)
    (Facility.facility_id facility) (Facility.number_of_courts facility)
    start_dt end_dt tr = (Ok free, tr1) →
  (∀ c, c ∈ Bq.court_numbers request → c ∈ free) →
  ∃ ids,
    Bs.success (create_booking env request tr).1 = true
    ∧ Bs.booking_id (create_booking env request tr).1 = Some (str_join "," ids)
    ∧ Bs.booking_ids <$> Bs.data (create_booking env request tr).1 = Some ids
    ∧ length ids = length (Bq.court_numbers request).
Proof.
  intros Hs Ha Hf Hslot Hok Hcourts Hend Hhours Hstart Hstop Hget Hall.
  assert (first_unavailable (Bq.court_numbers request) free = None) as Hnone.
  { clear -Hall. induction (Bq.court_numbers request) as [|c l IH]; simpl; [done|].
    rewrite bool_decide_eq_true_2 by (apply Hall; by left).
    apply IH. intros x Hx. apply Hall. by right. }
  destruct (book_courts_all_created env facility request start_dt end_dt svc
              (Bq.court_numbers request) [] tr1 Hs Ha) as (ids & tr2 & Hbook & Hl).
  exists ids.
  unfold create_booking, create_booking_body.
  rewrite Hs, Hf. unfold io_bind, io_lift, io_ret.
  rewrite Hslot, Hok. simpl. rewrite Hcourts. simpl.
  rewrite Hend, Hhours. simpl. rewrite Hstart, Hstop, Hget, Hnone, Hbook. simpl.
  apply accepted_courts_fit in Hcourts as [Hpos _].
  destruct ids as [|id ids]; [simpl in Hl; lia|]. simpl. done.
Qed.

Lemma accepted_inserts_give_one_id_per_court_witness :
  ∃ ids,
    Bs.success (create_booking (Scenario.env_of (Some Scenario.healthy))
                  (Scenario.booking [4; 1]) []).1 = true
    ∧ Bs.booking_id (create_booking (Scenario.env_of (Some Scenario.healthy))
                       (Scenario.booking [4; 1]) []).1 = Some (str_join "," ids)
    ∧ Bs.booking_ids <$> Bs.data (create_booking (Scenario.env_of (Some Scenario.healthy))
                                    (Scenario.booking [4; 1]) []).1 = Some ids
    ∧ length ids = length (Bq.court_numbers (Scenario.booking [4; 1])).
Proof.
  apply (accepted_inserts_give_one_id_per_court
           (Scenario.env_of (Some Scenario.healthy)) (Scenario.booking [4; 1]) []
           Scenario.healthy Scenario.arena (true, "") "15:00"
           Scenario.slot_start Scenario.slot_end [1; 3; 4]
           (replicate 4 (EventsList "primary" Scenario.slot_start Scenario.slot_end))).
  - reflexivity.
  - intros h c body. eexists. split; [reflexivity|]. discriminate.
  - reflexivity.
  - reflexivity.
  - reflexivity.
  - vm_compute. reflexivity.
  - reflexivity.
  - reflexivity.
  - reflexivity.
  - reflexivity.
  - vm_compute. reflexivity.
  - intros c Hc. apply elem_of_cons in Hc as [->|Hc];
      [|apply list_elem_of_singleton in Hc; subst c];
      apply (bool_decide_unpack _); vm_compute; exact I.
Defined.
End WriteLoop.

Section Loading.
Import FacilityService FacilityLoading.

Lemma load_app self before rest :
  validated before →
  load_facilities self (before ++ rest)
  = load_facilities (load_facilities self before).2 rest.
Proof.
  intros Hv. revert self. induction Hv as [|[k [f|]] before Hk _ IH]; intros self; simpl.
  - reflexivity.
  - apply IH.
  - by destruct Hk.
Qed.

Lemma load_keeps_id self items id :
  validated items → id ∉ items.*1 →
  facilities (load_facilities self items).2 !! id = facilities self !! id.
Proof.
  intros Hv. revert self. induction Hv as [|[k [f|]] items Hk _ IH]; intros self Hid; simpl.
  - reflexivity.
  - rewrite IH by (intros ?; apply Hid; by right). simpl.
    apply lookup_insert_ne. intros ->. apply Hid. by left.
  - by destruct Hk.
Qed.

Lemma load_keeps_phone self items phone :
  validated items →
  (∀ k f, (k, Some f) ∈ items → Facility.phone_number f ≠ phone) →
  phone_to_facility (load_facilities self items).2 !! phone
  = phone_to_facility self !! phone.
Proof.
  intros Hv. revert self. induction Hv as [|[k [f|]] items Hk _ IH]; intros self Hp; simpl.
  - reflexivity.
  - rewrite IH by (intros k' f' Hin; apply (Hp k'); by right). simpl.
    apply lookup_insert_ne. apply (Hp k). by left.
  - by destruct Hk.
Qed.

Lemma load_valid_ok self items :
  validated items → (load_facilities self items).1 = Ok tt.
Proof.
  intros Hv. revert self. induction Hv as [|[k [f|]] items Hk _ IH]; intros self; simpl.
  - reflexivity.
  - apply IH.
  - by destruct Hk.
Qed.

(** X19. After loading valid items with distinct keys into an empty directory
    the load returns normally, every item is found by its id, and an id
    that was not in the file is not found. *)
Theorem loaded_facility_found_by_id items facility_id facility :
  validated items → NoDup items.*1 →
  (facility_id, Some facility) ∈ items →
  (load_facilities (mk ∅ ∅) items).1 = Ok tt
  ∧ get_facility_by_id (started items) facility_id = Some facility
  ∧ (∀ other, other ∉ items.*1 → get_facility_by_id (started items) other = None).
Proof.
  intros Hv Hnd Hin. split; [by apply load_valid_ok|]. split.
  - apply list_elem_of_split in Hin as (before & after & ->).
    apply Forall_app in Hv as [Hvb Hva]. apply Forall_cons in Hva as [_ Hva].
    rewrite fmap_app, fmap_cons in Hnd. apply NoDup_app in Hnd as (_ & _ & Hnd).
    apply NoDup_cons in Hnd as [Hnotin _].
    unfold started, get_facility_by_id. rewrite load_app by done. simpl.
    rewrite load_keeps_id by done. simpl. apply lookup_insert_eq.
  - intros other Ho. unfold started, get_facility_by_id.
    rewrite load_keeps_id by done. simpl. apply lookup_empty.
Qed.

(** X20. A loaded facility is found by its phone number when it has a non-empty
    id and no later item reuses its id or its phone number, also when an
    earlier item has the same number: the last one wins. *)
Theorem last_facility_with_a_phone_answers_it self before facility_id facility after :
  validated before → validated after →
  facility_id ≠ "" →
  facility_id ∉ after.*1 →
  (∀ k f, (k, Some f) ∈ after →
          Facility.phone_number f ≠ Facility.phone_number facility) →
  get_facility_by_phone
    (load_facilities self (before ++ (facility_id, Some facility) :: after)).2
    (Facility.phone_number facility)
  = Some facility.
Proof.
  intros Hvb Hva Hne Hid Hph. unfold get_facility_by_phone.
  rewrite load_app by done. simpl.
  rewrite load_keeps_phone by done. simpl. rewrite lookup_insert_eq.
  apply String.eqb_neq in Hne. rewrite Hne.
  rewrite load_keeps_id by done. simpl. apply lookup_insert_eq.
Qed.

(** X21. When an item fails validation, [load_facilities] raises and leaves the
    directory as the items before it made it: that item and the ones after
    it are not loaded. *)
Theorem failed_validation_truncates_directory self good facility_id rest :
  validated good →
  ∃ e,
    load_facilities self (good ++ (facility_id, None) :: rest)
    = (Raise e, (load_facilities self good).2)
    ∧ ∀ other, other ∉ good.*1 →
        get_facility_by_id
          (load_facilities self (good ++ (facility_id, None) :: rest)).2 other
        = get_facility_by_id self other.
Proof.
  intros Hv. eexists. rewrite load_app by done. simpl. split; [reflexivity|].
  intros other Ho. unfold get_facility_by_id. by apply load_keeps_id.
Qed.
End Loading.

Section SlotAcceptance.
Import SlotUtils.

Ltac slot_cases :=
  repeat split; intros;
  repeat match goal with
  | H : _ ∧ _ |- _ => destruct H
  | H : ∃ _, _ |- _ => destruct H
  | H : true = true → _ |- _ => specialize (H eq_refl); simpl in H
  | H : Ok _ = Raise _ |- _ => discriminate H
  | H : Raise _ = Ok _ |- _ => discriminate H
  | H : Ok (false, _) = Ok (true, _) |- _ => discriminate H
  end; try done; try lia; eauto.

(** X22. [validate_booking_slot] accepts exactly when the start is aligned (if
    fixed slots are on), the duration reaches the minimum, the multiple is
    not zero and divides the duration; it raises exactly when the start is
    aligned, the duration reaches the minimum and the multiple is zero. *)
Theorem booking_slot_accepted_iff start_time duration_minutes (rules : gmap string pyval) :
  let minimum := default (PInt 60) (rules !! "minimum_duration") in
  let multiple := default (PInt 60) (rules !! "duration_multiples") in
  let aligned :=
    truthy (default (PBool true) (rules !! "fixed_slots")) = true →
    (validate_slot_alignment start_time).1 = true in
  (validate_booking_slot start_time duration_minutes rules = Ok (true, "")
     ↔ aligned ∧ int_of minimum ≤ duration_minutes ∧ int_of multiple ≠ 0
       ∧ (int_of multiple | duration_minutes))
  ∧ ((∃ e, validate_booking_slot start_time duration_minutes rules = Raise e)
     ↔ aligned ∧ int_of minimum ≤ duration_minutes ∧ int_of multiple = 0).
Proof.
  intros minimum multiple aligned. subst aligned.
  unfold validate_booking_slot, validate_duration. fold minimum multiple.
  destruct (truthy (default (PBool true) (rules !! "fixed_slots"))) eqn:Hf;
    [destruct (validate_slot_alignment start_time) as [[] msg] eqn:Ha|]; simpl;
    try (slot_cases; fail);
    (destruct (duration_minutes <? int_of minimum) eqn:Hmin;
     [apply Z.ltb_lt in Hmin|apply Z.ltb_ge in Hmin]; simpl; [slot_cases|]);
    (destruct (int_of multiple =? 0) eqn:Hz;
     [apply Z.eqb_eq in Hz|apply Z.eqb_neq in Hz]; simpl; [slot_cases|]);
    (destruct (duration_minutes mod int_of multiple =? 0) eqn:Hm;
     [apply Z.eqb_eq in Hm; apply Z.mod_divide in Hm; [|done]
     |apply Z.eqb_neq in Hm;
      assert (¬ (int_of multiple | duration_minutes))
        by (intros Hd; apply Hm; by apply Z.mod_divide)];
     simpl; slot_cases).
Qed.
End SlotAcceptance.

Section Capacity.
Import TimeUtils SlotUtils CalendarService BookingService Spec Vocabulary.

Lemma resolver_length self facility_id total start_dt end_dt tr free tr' :
  get_available_courts self facility_id total start_dt end_dt tr = (Ok free, tr') →
  (length free ≤ Z.to_nat total)%nat.
Proof.
  unfold get_available_courts. destruct (service self) as [svc|] eqn:Hs.
  - intros H. apply (loop_ok_initialized _ _ _ _ svc) in H as [(kept & -> & Hk) _]; [|done].
    apply sublist_length in Hk. by rewrite length_seqZ in Hk.
  - rewrite loop_uninitialized by done. intros [= <- _]. simpl. by rewrite length_seqZ.
Qed.

(** X23. A request for more courts than the facility has is never reported
    available. *)
Theorem over_capacity_request_never_available env request tr facility :
  FacilityService.get_facility_by_id (facility_service env) (Rq.facility_id request)
    = Some facility →
  0 ≤ Facility.number_of_courts facility →
  Facility.number_of_courts facility < Rq.number_of_courts request →
  Rs.available (check_availability env request tr).1 = false.
Proof.
  intros Hf Hn Hover. unfold check_availability, check_availability_body.
  rewrite Hf. unfold io_bind, io_lift, io_ret.
  destruct (validate_booking_slot _ _ _) as [[[] ?]|?]; simpl; try reflexivity.
  destruct (calculate_end_time _ _ _) as [end_time|?]; simpl; try reflexivity.
  destruct (is_within_operating_hours _ _ _ _) as [[] ?]; simpl; try reflexivity.
  destruct (combine_datetime _ _) as [start_dt|?]; simpl; try reflexivity.
  destruct (get_end_datetime _ _) as [end_dt|?]; simpl; try reflexivity.
  destruct (CalendarService.get_available_courts _ _ _ _ _ _) as [[free|?] tr'] eqn:Hget;
    simpl; try reflexivity.
  apply resolver_length in Hget.
  assert ((Z.of_nat (length free) <? Rq.number_of_courts request) = true) as ->
    by (apply Z.ltb_lt; lia).
  reflexivity.
Qed.

Lemma over_capacity_request_never_available_witness :
  FacilityService.get_facility_by_id
    (facility_service (Scenario.env_of None)) (Rq.facility_id (Scenario.check "14:00" 60 5))
    = Some Scenario.arena
  ∧ 0 ≤ Facility.number_of_courts Scenario.arena
  ∧ Facility.number_of_courts Scenario.arena < Rq.number_of_courts (Scenario.check "14:00" 60 5)
  ∧ Rs.available (check_availability (Scenario.env_of None)
                    (Scenario.check "14:00" 60 5) []).1 = false.
Proof.
  assert (0 ≤ Facility.number_of_courts Scenario.arena) as H0 by (simpl; lia).
  assert (Facility.number_of_courts Scenario.arena
          < Rq.number_of_courts (Scenario.check "14:00" 60 5)) as H1 by (simpl; lia).
  exact (conj eq_refl (conj H0 (conj H1
           (over_capacity_request_never_available (Scenario.env_of None)
              (Scenario.check "14:00" 60 5) [] Scenario.arena eq_refl H0 H1)))).
Defined.
End Capacity.

Section ExtraWitnesses.
Import TimeUtils CalendarService BookingService FacilityService FacilityLoading Spec Vocabulary.

Lemma written_event_is_read_as_booked_witness :
  service Directory.calendar = Some Scenario.healthy
  ∧ ∃ body,
      (create_booking_event Directory.calendar "Arena One" "arena_1" 2 "Ann"
         "+919876543210" Scenario.slot_start Scenario.slot_end "2024-12-25" "14:00" 60 []).2
      = [] ++ [EventsInsert (calendar_id Directory.calendar) body]
      ∧ ∀ before after,
          scan_events 2 "arena_1" (before ++ listed body :: after) = false.
Proof.
  exact (conj eq_refl
           (written_event_is_read_as_booked Directory.calendar Scenario.healthy
              "Arena One" "arena_1" 2 "Ann" "+919876543210"
              Scenario.slot_start Scenario.slot_end "2024-12-25" "14:00" 60 [] eq_refl)).
Defined.

Lemma written_event_blocks_prefix_courts_witness :
  service Directory.calendar = Some Scenario.healthy
  ∧ String.prefix (str_of_Z 1) (str_of_Z 12) = true
  ∧ ∃ body,
      (create_booking_event Directory.calendar "Annex Two" "annex_2" 12 "Ann"
         "+919876543210" Scenario.slot_start Scenario.slot_end "2024-12-25" "14:00" 60 []).2
      = [] ++ [EventsInsert (calendar_id Directory.calendar) body]
      ∧ ∀ before after,
          scan_events 1 "annex_2" (before ++ listed body :: after) = false.
Proof.
  exact (conj eq_refl (conj eq_refl
           (written_event_blocks_prefix_courts Directory.calendar Scenario.healthy
              "Annex Two" "annex_2" 12 "Ann" "+919876543210"
              Scenario.slot_start Scenario.slot_end "2024-12-25" "14:00" 60 [] 1
              eq_refl eq_refl))).
Defined.

Lemma resolver_result_shape_witness :
  get_available_courts Directory.calendar "arena_1" 4 Scenario.slot_start Scenario.slot_end []
    = (Ok [1; 3; 4],
       replicate 4 (EventsList "primary" Scenario.slot_start Scenario.slot_end))
  ∧ [1; 3; 4] `sublist_of` seqZ 1 4.
Proof.
  assert (get_available_courts Directory.calendar "arena_1" 4
            Scenario.slot_start Scenario.slot_end []
          = (Ok [1; 3; 4],
             replicate 4 (EventsList "primary" Scenario.slot_start Scenario.slot_end)))
    as Hget by (vm_compute; reflexivity).
  exact (conj Hget
           (proj1 (resolver_result_shape Directory.calendar "arena_1"
                     Scenario.slot_start Scenario.slot_end 4 [] [1; 3; 4] _ Hget))).
Defined.

Lemma loaded_facility_found_by_id_witness :
  validated Directory.items ∧ NoDup Directory.items.*1
  ∧ ("annex_2", Some Directory.annex) ∈ Directory.items
  ∧ get_facility_by_id (started Directory.items) "annex_2" = Some Directory.annex.
Proof.
  assert (validated Directory.items) as Hv by (repeat constructor; eauto).
  assert (NoDup Directory.items.*1) as Hnd
    by (apply (bool_decide_unpack _); vm_compute; exact I).
  assert (("annex_2", Some Directory.annex) ∈ Directory.items) as Hin
    by (right; left).
  exact (conj Hv (conj Hnd (conj Hin
           (proj1 (proj2 (loaded_facility_found_by_id Directory.items "annex_2"
                            Directory.annex Hv Hnd Hin)))))).
Defined.

Lemma last_facility_with_a_phone_answers_it_witness :
  validated Directory.items ∧ validated [] ∧ "twin_3" ≠ ""
  ∧ get_facility_by_phone
      (load_facilities (FacilityService.mk ∅ ∅)
         (Directory.items ++ [("twin_3", Some Directory.twin)])).2
      "+910000000001"
    = Some Directory.twin.
Proof.
  assert (validated Directory.items) as Hv by (repeat constructor; eauto).
  assert (validated []) as Hn by constructor.
  assert ("twin_3" ≠ "") as Hne by discriminate.
  exact (conj Hv (conj Hn (conj Hne
           (last_facility_with_a_phone_answers_it (FacilityService.mk ∅ ∅)
              Directory.items "twin_3" Directory.twin [] Hv Hn Hne
              (λ H, proj1 (elem_of_nil _) H)
              (λ k f H, match proj1 (elem_of_nil _) H with end))))).
Defined.

Lemma failed_validation_truncates_directory_witness :
  validated [("arena_1", Some Scenario.arena)]
  ∧ ∃ e,
      load_facilities (FacilityService.mk ∅ ∅)
        ([("arena_1", Some Scenario.arena)] ++ ("broken", None)
           :: [("annex_2", Some Directory.annex)])
      = (Raise e,
         (load_facilities (FacilityService.mk ∅ ∅) [("arena_1", Some Scenario.arena)]).2)
      ∧ ∀ other, other ∉ [("arena_1", Some Scenario.arena)].*1 →
          get_facility_by_id
            (load_facilities (FacilityService.mk ∅ ∅)
               ([("arena_1", Some Scenario.arena)] ++ ("broken", None)
                  :: [("annex_2", Some Directory.annex)])).2 other
          = get_facility_by_id (FacilityService.mk ∅ ∅) other.
Proof.
  assert (validated [("arena_1", Some Scenario.arena)]) as Hv
    by (repeat constructor; eauto).
  exact (conj Hv
           (failed_validation_truncates_directory (FacilityService.mk ∅ ∅)
              [("arena_1", Some Scenario.arena)] "broken"
              [("annex_2", Some Directory.annex)] Hv)).
Defined.
End ExtraWitnesses.
